(** * video-ocr: the sampling-to-subtitle pipeline of [main.py]

    A shallow embedding of [ms_to_srt_time], [OCRWorker.run],
    [OCRWorker.write_srt] and [OCRWorker.stop], of the mouse handlers of
    [VideoLabel] and of the button and signal handlers of [MainWindow],
    and the properties proved about them.

    Modelling conventions.
    - Python [str] values are [string]s; every [ascii] stands for one
      character (code points 0 to 255).
    - Timestamps ([cap.get(cv2.CAP_PROP_POS_MSEC)]) are Python floats:
      binary64 numbers, the primitive [float], with the subtraction, the
      division and the comparisons of IEEE 754. [datetime.timedelta] is
      the C implementation of CPython ([_datetimemodule.c]).
    - OCR scores are rationals ([Q]), an infinity or a NaN.
    - An exception is a value [Raise msg], [msg] being [str(e)].
    - The video, the OCR engine, the user interface that calls [stop()]
      and the disk are the environment of a run: a record of what each of
      them does and when. *)

From Stdlib Require Import QArith ZArith List String Ascii Bool Lia DecimalString Sorted.
From Stdlib Require Import Floats.
Import ListNotations.

#[local] Open Scope string_scope.
#[local] Open Scope Z_scope.

(** ** Exceptions *)

Inductive result (A : Type) : Type :=
| Ok (a : A)
| Raise (msg : string).
Arguments Ok {A} a.
Arguments Raise {A} msg.

Definition rbind {A B} (r : result A) (k : A -> result B) : result B :=
  match r with
  | Ok a => k a
  | Raise msg => Raise msg
  end.

Notation "'try!' x <- r ; k" := (rbind r (fun x => k))
  (at level 10, x name, r at level 100, k at level 200).

(** ** Python string builtins *)

Module Py.

(** [str.isspace] on the characters below 256. *)
Definition isspace (c : ascii) : bool :=
  let n := nat_of_ascii c in
  ((9 <=? n) && (n <=? 13) || (28 <=? n) && (n <=? 32)
   || (n =? 133) || (n =? 160))%nat.

Fixpoint lstrip (s : string) : string :=
  match s with
  | String c s' => if isspace c then lstrip s' else s
  | EmptyString => EmptyString
  end.

(** [rstrip] drops a character when it is a space and everything after it
    has been dropped too. *)
Fixpoint rstrip (s : string) : string :=
  match s with
  | String c s' =>
      match rstrip s' with
      | EmptyString => if isspace c then EmptyString else String c EmptyString
      | r => String c r
      end
  | EmptyString => EmptyString
  end.

(** [s.strip()] *)
Definition strip (s : string) : string := rstrip (lstrip s).

(** [sep.join(ls)] *)
Definition join (sep : string) (ls : list string) : string := String.concat sep ls.

(** [c in s] for a one-character [c] *)
Fixpoint contains (c : ascii) (s : string) : bool :=
  match s with
  | String d s' => Ascii.eqb c d || contains c s'
  | EmptyString => false
  end.

(** [s.split(c)] for a one-character separator: the pieces between the
    occurrences of [c], always at least one piece. *)
Fixpoint split (c : ascii) (s : string) : list string :=
  match s with
  | EmptyString => [EmptyString]
  | String d s' =>
      if Ascii.eqb c d then EmptyString :: split c s'
      else match split c s' with
           | p :: ps => String d p :: ps
           | [] => [String d EmptyString]
           end
  end.

(** [s[:n]] *)
Definition prefix (n : nat) (s : string) : string := substring 0 n s.

(** [if s:] on a string *)
Definition truthy (s : string) : bool := negb (String.eqb s "").

(** ["%d" % n] *)
Definition format_d (n : Z) : string := NilZero.string_of_int (Z.to_int n).

Fixpoint zeros (n : nat) : string :=
  match n with
  | O => EmptyString
  | S k => String "0" (zeros k)
  end.

(** ["%0<width>d" % n]: the sign first, then zeros up to the width. *)
Definition format_0d (width : nat) (n : Z) : string :=
  if n <? 0 then
    let body := format_d (- n) in
    "-" ++ zeros (width - 1 - String.length body) ++ body
  else
    let body := format_d n in
    zeros (width - String.length body) ++ body.

End Py.

(** ** Python [float] and [int] *)

(** [float(z)]: the nearest binary64 number, a tie going to the even one. *)
Definition float_of_int (z : Z) : float :=
  SF2Prim (binary_normalize prec emax z 0 false).

(** [int(x)], in C [PyLong_FromDouble(x)]: [x] cut towards zero. *)
Definition int_of_float (x : float) : result Z :=
  match Prim2SF x with
  | S754_nan => Raise "cannot convert float NaN to integer"
  | S754_infinity _ => Raise "cannot convert float infinity to integer"
  | S754_zero _ => Ok 0
  | S754_finite s m e =>
      Ok (cond_Zopp s (if 0 <=? e then Z.shiftl (Zpos m) e else Z.shiftr (Zpos m) (- e)))
  end.

(** [fracpart = modf(x, &intpart)] and [PyLong_FromDouble(intpart)]: the
    integral part of [x] as an [int], and what is left of [x], which a
    float holds exactly. *)
Definition modf (x : float) : result (float * Z) :=
  try! intpart <- int_of_float x;
  Ok ((x - float_of_int intpart)%float, intpart).

(** ** [datetime.timedelta] *)

Record timedelta : Type := mk_timedelta {
  td_days : Z;
  td_seconds : Z;
  td_microseconds : Z
}.

(** [microseconds_to_delta_ex] and [new_delta_ex]: days, seconds in
    [0, 86400) and microseconds in [0, 1000000) by two [divmod]s; the days
    have to fit a C [int], and more than 999999999 days either way is an
    [OverflowError] as well. *)
Definition microseconds_to_delta (us : Z) : result timedelta :=
  let seconds := us / 1000000 in
  let days := seconds / 86400 in
  if (days <? - 2147483648) || (2147483647 <? days) then
    Raise "Python int too large to convert to C int"
  else if 999999999 <? Z.abs days then
    Raise ("days=" ++ Py.format_d days ++ "; must have magnitude <= 999999999")
  else
    Ok {| td_days := days;
          td_seconds := seconds mod 86400;
          td_microseconds := us mod 1000000 |}.

(** What [delta_new] adds to the sum [x] of whole microseconds for the
    fraction [leftover_us] of a microsecond that is left: [round] of it,
    and for a fraction of exactly one half what makes the sum even. *)
Definition whole_us (leftover_us : float) (x : Z) : Z :=
  if (leftover_us =? 0)%float then 0
  else if (abs leftover_us <? 0.5)%float then 0
  else if (0.5 <? abs leftover_us)%float || Z.odd x then
    if (leftover_us <? 0)%float then -1 else 1
  else 0.

(** [datetime.timedelta(seconds=seconds)] on a float ([delta_new] and
    [accum]): the whole seconds are converted exactly; the fraction of a
    second is multiplied by 1000000.0, in floating point, and rounded to
    a whole number of microseconds. *)
Definition timedelta_of_seconds (seconds : float) : result timedelta :=
  try! p <- modf seconds;
  let '(fracpart, intpart) := p in
  let x := intpart * 1000000 in
  if (fracpart =? 0)%float then microseconds_to_delta x
  else
    try! q <- modf (1000000 * fracpart)%float;
    let '(fracpart, intpart) := q in
    let x := x + intpart in
    let leftover_us := (0 + fracpart)%float in
    microseconds_to_delta (x + whole_us leftover_us x).

(** [str(td)], as [timedelta.__str__] builds it: hours unpadded, a
    ["N day(s), "] prefix when days are not zero, six digits of
    microseconds when they are not zero. *)
Definition timedelta_str (td : timedelta) : string :=
  let mm := td_seconds td / 60 in
  let ss := td_seconds td mod 60 in
  let hh := mm / 60 in
  let mm := mm mod 60 in
  let s := Py.format_d hh ++ ":" ++ Py.format_0d 2 mm ++ ":" ++ Py.format_0d 2 ss in
  let s :=
    if td_days td =? 0 then s
    else Py.format_d (td_days td) ++ " day"
         ++ (if Z.abs (td_days td) =? 1 then "" else "s") ++ ", " ++ s in
  if td_microseconds td =? 0 then s
  else s ++ "." ++ Py.format_0d 6 (td_microseconds td).

(** ** [ms_to_srt_time] (main.py, lines 22-32) *)

Definition ms_to_srt_time (ms : float) : result string :=
  let seconds := (ms / 1000)%float in
  try! td <- timedelta_of_seconds seconds;
  let fin := timedelta_str td in
  if Py.contains "." fin then
    match Py.split "." fin with
    | [main; micro] => Ok (main ++ "," ++ Py.prefix 3 micro)
    | _ => Raise "too many values to unpack (expected 2)"
    end
  else Ok (fin ++ ",000").

(** ** What the OCR engine returns *)

Inductive pyfloat : Type :=
| Fin (q : Q)
| PosInf
| NegInf
| NaN.

(** [x > t] for a finite threshold [t]; every comparison with NaN is false. *)
Definition float_gt (x : pyfloat) (t : Q) : bool :=
  match x with
  | Fin q => negb (Qle_bool q t)
  | PosInf => true
  | NegInf => false
  | NaN => false
  end.

(** The objects found in a detection [[box, text, score]]. A [str] carries
    what [float()] reads in it, if anything. *)
Inductive pyobj : Type :=
| PyFloat (x : pyfloat)
| PyStr (s : string) (reads_as : option pyfloat)
| PyNone
| PyBox (points : list (Q * Q)).

Definition type_name (o : pyobj) : string :=
  match o with
  | PyFloat _ => "float"
  | PyStr _ _ => "str"
  | PyNone => "NoneType"
  | PyBox _ => "list"
  end.

(** [float(o)]: a [ValueError] on a string that is no number, a [TypeError]
    on [None] and on a box (a list of points). *)
Definition py_float (o : pyobj) : result pyfloat :=
  match o with
  | PyFloat x => Ok x
  | PyStr s (Some x) => Ok x
  | PyStr s None => Raise ("could not convert string to float: '" ++ s ++ "'")
  | _ => Raise ("float() argument must be a string or a real number, not '"
                ++ type_name o ++ "'")
  end.

(** [" ".join(texts)]: a [TypeError] on the first item that is no [str]. *)
Fixpoint py_join_from (i : Z) (texts : list pyobj) : result (list string) :=
  match texts with
  | [] => Ok []
  | PyStr s _ :: rest =>
      try! ss <- py_join_from (i + 1) rest;
      Ok (s :: ss)
  | o :: _ =>
      Raise ("sequence item " ++ Py.format_d i ++ ": expected str instance, "
             ++ type_name o ++ " found")
  end.

Definition py_join (sep : string) (texts : list pyobj) : result string :=
  try! ss <- py_join_from 0 texts;
  Ok (Py.join sep ss).

Definition detection : Type := list pyobj.

(** ** [OCRWorker] *)

Record config : Type := mk_config {
  video_path : string;
  output_path : string;
  roi : Z * Z * Z * Z;
  threshold : Q
}.

(** [threshold=0.6] *)
Definition default_threshold : Q := 6 # 10.

Definition skip_frames : Z := 5.

(** A subtitle, the dict [{"text": ..., "start": ..., "end": ...}]; the
    times are the floats [cap.get] returned. *)
Record sub : Type := mk_sub {
  sub_text : string;
  sub_start : float;
  sub_end : float
}.

(** The two variables the loop of [run] builds subtitles in. *)
Record builder : Type := mk_builder {
  subtitles : list sub;
  current_sub : sub
}.

(** [{"text": "", "start": 0, "end": 0}]: the two zeros are never read. *)
Definition no_sub : sub := mk_sub "" 0 0.

Definition builder_init : builder := mk_builder [] no_sub.

(** *** Text of one sample (run, lines 95-107) *)

(** [try: score = float(line[2])
     except (TypeError, ValueError, IndexError): score = 0.0] *)
Definition line_score (line : detection) : pyfloat :=
  match nth_error line 2 with
  | None => Fin 0
  | Some o =>
      match py_float o with
      | Ok x => x
      | Raise _ => Fin 0
      end
  end.

(** [for line in result: ...], [texts] being the list built so far. *)
Fixpoint collect_texts (th : Q) (ocr_result : list detection) (texts : list pyobj)
  : result (list pyobj) :=
  match ocr_result with
  | [] => Ok texts
  | line :: rest =>
      if float_gt (line_score line) th then
        match nth_error line 1 with
        | None => Raise "list index out of range"
        | Some t => collect_texts th rest (texts ++ [t])%list
        end
      else collect_texts th rest texts
  end.

Definition extract_text (th : Q) (ocr_result : option (list detection)) : result string :=
  match ocr_result with
  | None => Ok ""
  | Some [] => Ok ""
  | Some lines =>
      try! texts <- collect_texts th lines [];
      try! joined <- py_join " " texts;
      Ok (Py.strip joined)
  end.

(** *** The subtitle logic (run, lines 113-126) *)

Definition builder_step (st : builder) (current_ms : float) (detected_text : string)
  : builder :=
  let cur := current_sub st in
  if Py.truthy detected_text then
    if String.eqb (sub_text cur) detected_text then
      mk_builder (subtitles st) (mk_sub (sub_text cur) (sub_start cur) current_ms)
    else
      mk_builder
        (if Py.truthy (sub_text cur) then (subtitles st ++ [cur])%list else subtitles st)
        (mk_sub detected_text current_ms current_ms)
  else
    if Py.truthy (sub_text cur) then
      mk_builder (subtitles st ++ [cur])%list no_sub
    else st.

(** After the loop (run, lines 150-151). *)
Definition flush (st : builder) : list sub :=
  if Py.truthy (sub_text (current_sub st)) then (subtitles st ++ [current_sub st])%list
  else subtitles st.

(** *** One sampled frame (run, lines 84-126) *)

(** A decoded frame: its shape, what the engine answers on its crop, and
    the position of the video after it was read. *)
Record frame : Type := mk_frame {
  frame_h : Z;
  frame_w : Z;
  ocr_reply : result (option (list detection));
  pos_msec : float
}.

Definition clamp_roi (cfg : config) (fr : frame) : Z * Z * Z * Z :=
  let '(rx, ry, rw, rh) := roi cfg in
  (Z.max 0 rx, Z.max 0 ry, Z.min (frame_w fr) (rx + rw), Z.min (frame_h fr) (ry + rh)).

(** [x2 > x1 and y2 > y1] *)
Definition roi_visible (cfg : config) (fr : frame) : bool :=
  let '(x1, y1, x2, y2) := clamp_roi cfg fr in
  (x1 <? x2) && (y1 <? y2).

Definition process_sample (cfg : config) (fr : frame) (st : builder) : result builder :=
  if roi_visible cfg fr then
    try! ocr_result <- ocr_reply fr;
    try! detected_text <- extract_text (threshold cfg) ocr_result;
    Ok (builder_step st (pos_msec fr) detected_text)
  else Ok st.

(** *** The environment of a run *)

(** [engine_init]: the message of the exception [RapidOCR()] raises, if any.
    [frames]: the frames [cap.read()] yields one after the other, then
    [ret = False]. [cancel_at = Some k]: the user interface calls [stop()]
    after [k] reads of [self.is_running] by the worker, before read number
    [k] (from 0). [open_error]: what [open(output_path, 'w')]
    raises, if anything. [write_error = Some (n, msg)]: call number [n]
    (from 0) of [f.write] raises [msg]. *)
Record env : Type := mk_env {
  engine_init : option string;
  total_frames : Z;
  frames : list frame;
  cancel_at : option nat;
  open_error : option string;
  write_error : option (nat * string)
}.

(** [progress_signal] (its percentage and remaining-time text, computed in
    floating point from the wall clock, are left out), [finished_signal],
    [error_signal]. *)
Inductive signal : Type :=
| SigProgress
| SigFinished (path : string)
| SigError (msg : string).

Inductive capture : Type :=
| NotOpened
| Opened
| Released.

(** What a run leaves behind: the signals emitted, oldest first; the state
    of the [cv2.VideoCapture]; the chunks written to the output file, [None]
    when it was never opened; the number of frames read and of reads of
    [self.is_running]; the attribute [self.is_running] itself. *)
Record world : Type := mk_world {
  signals : list signal;
  cap : capture;
  file : option (list string);
  frames_read : nat;
  polls : nat;
  running : bool
}.

(** [__init__] sets [self.is_running = True]. *)
Definition world_init : world := mk_world [] NotOpened None 0 0 true.

Definition emit (sg : signal) (w : world) : world :=
  mk_world (signals w ++ [sg])%list (cap w) (file w) (frames_read w) (polls w) (running w).

Definition set_cap (c : capture) (w : world) : world :=
  mk_world (signals w) c (file w) (frames_read w) (polls w) (running w).

Definition set_file (f : list string) (w : world) : world :=
  mk_world (signals w) (cap w) (Some f) (frames_read w) (polls w) (running w).

Definition count_read (w : world) : world :=
  mk_world (signals w) (cap w) (file w) (S (frames_read w)) (polls w) (running w).

Definition count_poll (w : world) : world :=
  mk_world (signals w) (cap w) (file w) (frames_read w) (S (polls w)) (running w).

(** [stop] (lines 183-184) *)
Definition stop (w : world) : world :=
  mk_world (signals w) (cap w) (file w) (frames_read w) (polls w) false.

(** The user interface, running beside the worker: it has called [stop()]
    once the worker has read the flag [k] times. *)
Definition ui_thread (e : env) (w : world) : world :=
  match cancel_at e with
  | Some k => if (k <=? polls w)%nat then stop w else w
  | None => w
  end.

(** One read of [self.is_running] by the worker. *)
Definition is_running (e : env) (w : world) : bool * world :=
  let w := ui_thread e w in
  (running w, count_poll w).

(** *** [write_srt] (lines 168-181) *)

(** [f.write(chunk)] on the chunks [f] written so far. *)
Definition f_write (e : env) (f : list string) (chunk : string) : list string * result unit :=
  match write_error e with
  | Some (n, msg) =>
      if (List.length f =? n)%nat then (f, Raise msg) else ((f ++ [chunk])%list, Ok tt)
  | None => ((f ++ [chunk])%list, Ok tt)
  end.

Definition newline : string := String (ascii_of_nat 10) EmptyString.

Fixpoint write_srt_loop (e : env) (idx : Z) (subs : list sub) (f : list string)
  : list string * result unit :=
  match subs with
  | [] => (f, Ok tt)
  | s :: rest =>
      if (sub_end s - sub_start s <? 100)%float then write_srt_loop e idx rest f
      else
        match ms_to_srt_time (sub_start s) with
        | Raise msg => (f, Raise msg)
        | Ok start_str =>
        match ms_to_srt_time (sub_end s) with
        | Raise msg => (f, Raise msg)
        | Ok end_str =>
        match f_write e f (Py.format_d idx ++ newline) with
        | (f, Raise msg) => (f, Raise msg)
        | (f, Ok _) =>
        match f_write e f (start_str ++ " --> " ++ end_str ++ newline) with
        | (f, Raise msg) => (f, Raise msg)
        | (f, Ok _) =>
        match f_write e f (sub_text s ++ newline ++ newline) with
        | (f, Raise msg) => (f, Raise msg)
        | (f, Ok _) => write_srt_loop e (idx + 1) rest f
        end end end end end
  end.

(** The file is closed when the [with] block is left, also by an
    exception: what was written stays. *)
Definition write_srt (e : env) (subs : list sub) (w : world) : world * result unit :=
  match open_error e with
  | Some msg => (w, Raise msg)
  | None =>
      let '(f, r) := write_srt_loop e 1 subs [] in
      (set_file f w, r)
  end.

(** *** [run] (lines 50-166) *)

Record loop_state : Type := mk_loop_state {
  bld : builder;
  frame_idx : Z;
  processed_count : Z
}.

Definition loop_init : loop_state := mk_loop_state builder_init 0 0.

(** The [while self.is_running:] loop, on the frames still to come. *)
Fixpoint run_loop (cfg : config) (e : env) (fs : list frame) (ls : loop_state) (w : world)
  : world * result loop_state :=
  let '(running, w) := is_running e w in
  if negb running then (w, Ok ls)
  else
    match fs with
    | [] => (w, Ok ls)
    | fr :: rest =>
        let w := count_read w in
        if frame_idx ls mod skip_frames =? 0 then
          match process_sample cfg fr (bld ls) with
          | Raise msg => (w, Raise msg)
          | Ok b =>
              let processed := processed_count ls + 1 in
              if 0 <? processed then
                if total_frames e =? 0 then (w, Raise "division by zero")
                else
                  run_loop cfg e rest
                    (mk_loop_state b (frame_idx ls + 1) processed)
                    (emit SigProgress w)
              else
                run_loop cfg e rest (mk_loop_state b (frame_idx ls + 1) processed) w
          end
        else
          run_loop cfg e rest
            (mk_loop_state (bld ls) (frame_idx ls + 1) (processed_count ls)) w
    end.

(** The body of the [try:]. *)
Definition run_body (cfg : config) (e : env) (w : world) : world * result unit :=
  match engine_init e with
  | Some msg => (w, Raise msg)
  | None =>
      let w := set_cap Opened w in
      match run_loop cfg e (frames e) loop_init w with
      | (w, Raise msg) => (w, Raise msg)
      | (w, Ok ls) =>
          let subs := flush (bld ls) in
          let w := set_cap Released w in
          let '(running, w) := is_running e w in
          if negb running then (w, Ok tt)
          else
            match write_srt e subs w with
            | (w, Raise msg) => (w, Raise msg)
            | (w, Ok _) => (emit (SigFinished (output_path cfg)) w, Ok tt)
            end
      end
  end.

(** [run]: [except Exception as e: self.error_signal.emit(str(e))]. *)
Definition run (cfg : config) (e : env) : world :=
  match run_body cfg e world_init with
  | (w, Ok _) => w
  | (w, Raise msg) => emit (SigError msg) w
  end.

(** ** Observation streams *)

(** The builder run over the (timestamp, text) observations of a stream:
    [observe] is the state of the loop after them, [build] the list
    handed to [write_srt]. *)
Definition observe_from (st : builder) (obs : list (float * string)) : builder :=
  fold_left (fun st o => builder_step st (fst o) (snd o)) obs st.

Definition observe (obs : list (float * string)) : builder := observe_from builder_init obs.

Definition build (obs : list (float * string)) : list sub := flush (observe obs).

(** * The vocabulary of the properties *)

(** ** Timestamp texts *)

Definition dotless (s : string) : Prop := Py.contains "." s = false.

(** [str(td)] up to the seconds. *)
Definition clock_text (td : timedelta) : string :=
  let mm := td_seconds td / 60 in
  let hms := Py.format_d (mm / 60) ++ ":" ++ Py.format_0d 2 (mm mod 60)
             ++ ":" ++ Py.format_0d 2 (td_seconds td mod 60) in
  if td_days td =? 0 then hms
  else Py.format_d (td_days td) ++ " day"
       ++ (if Z.abs (td_days td) =? 1 then "" else "s") ++ ", " ++ hms.

(** The last three characters of what [ms_to_srt_time] returns: the first
    three of the six digits of the microseconds. *)
Definition millis_text (td : timedelta) : string :=
  if td_microseconds td =? 0 then "000"
  else Py.prefix 3 (Py.format_0d 6 (td_microseconds td)).

(** [ms_to_srt_time] returns a text on [ms]: [timedelta] accepts
    [ms / 1000]. *)
Definition convertible (ms : float) : bool :=
  match ms_to_srt_time ms with
  | Ok _ => true
  | Raise _ => false
  end.

(** The text [ms_to_srt_time] returns on [ms]. *)
Definition srt_time (ms : float) : string :=
  match ms_to_srt_time ms with
  | Ok text => text
  | Raise _ => ""
  end.

(** ** The order of timestamps *)

(** Python's [x < y] and [x <= y] on floats hold. *)
Definition flt (x y : float) : Prop := (x <? y)%float = true.

Definition fle (x y : float) : Prop := (x <=? y)%float = true.

(** [x] is a number, not a NaN. *)
Definition number (x : float) : Prop := is_nan x = false.

#[local] Open Scope list_scope.

(** ** Streams and segments *)

Definition prepend (L : list sub) (st : builder) : builder :=
  mk_builder (L ++ subtitles st) (current_sub st).

Definition first_text (obs : list (float * string)) : string :=
  snd (hd (0%float, "") obs).

Definition last_text (obs : list (float * string)) : string :=
  snd (last obs (0%float, "")).

Definition run_of (s : string) (ts : list float) : list (float * string) :=
  map (fun t => (t, s)) ts.

Definition before (a b : sub) : Prop := flt (sub_end a) (sub_start b).

Definition well_timed (s : sub) : Prop := fle (sub_start s) (sub_end s).

Definition increasing (obs : list (float * string)) : Prop :=
  StronglySorted flt (map fst obs).

(** The timestamps of the stream are numbers. *)
Definition numbers (obs : list (float * string)) : Prop :=
  Forall number (map fst obs).

(** The invariant of the loop: the segments so far, the open one included,
    are well timed, each ends before the next starts, and all end before
    every timestamp still to come. *)
Definition settled (st : builder) (ahead : list float) : Prop :=
  Forall well_timed (flush st)
  /\ StronglySorted before (flush st)
  /\ Forall (fun s => Forall (fun t => flt (sub_end s) t) ahead) (flush st).

(** ** The filter and the file *)

(** The Segment Filter as the specification words it: drop the segments
    with [end - start < 100], keep the others, in order. The difference and
    the comparison are those of Python floats. *)
Definition long_enough (s : sub) : bool :=
  negb (sub_end s - sub_start s <? 100)%float.

Definition duration_filter (subs : list sub) : list sub := filter long_enough subs.

(** The three writes of one block: the index, the timing line, the text
    followed by the blank line. *)
Definition srt_block (idx : Z) (s : sub) : list string :=
  [(Py.format_d idx ++ newline)%string;
   (srt_time (sub_start s) ++ " --> " ++ srt_time (sub_end s) ++ newline)%string;
   (sub_text s ++ newline ++ newline)%string].

(** The Serializer as the specification words it: one block per segment,
    in order, numbered from [idx] on. *)
Fixpoint blocks_from (idx : Z) (subs : list sub) : list string :=
  match subs with
  | [] => []
  | s :: rest => srt_block idx s ++ blocks_from (idx + 1) rest
  end.

(** Both times of [s] have a text. *)
Definition convertible_sub (s : sub) : Prop :=
  convertible (sub_start s) = true /\ convertible (sub_end s) = true.

Definition disk_sound (e : env) : Prop :=
  open_error e = None /\ write_error e = None.

Definition indices (n : nat) : list Z := map Z.of_nat (seq 1 n).

(** ** Detections *)

(** The score of a detection as a number, when it has one. *)
Definition numeric_score (line : detection) : option pyfloat :=
  match nth_error line 2 with
  | Some o => match py_float o with Ok x => Some x | Raise _ => None end
  | None => None
  end.

(** The Extractor as the specification words it: keep the lines whose score
    strictly exceeds the threshold, a line without a numeric score being
    rejected; join their texts with single spaces, in order, and strip. *)
Definition accepted (th : Q) (line : detection) : bool :=
  match numeric_score line with
  | Some x => float_gt x th
  | None => false
  end.

Definition text_of (line : detection) : string :=
  match nth_error line 1 with
  | Some (PyStr s _) => s
  | _ => ""%string
  end.

Definition kept_texts (th : Q) (lines : list detection) : list string :=
  map text_of (filter (accepted th) lines).

(** The engine's contract on texts: what stands at index 1 is a [str]. *)
Definition has_text (line : detection) : Prop :=
  match nth_error line 1 with
  | Some (PyStr _ _) => True
  | Some _ => False
  | None => True
  end.

Definition is_str (o : pyobj) : Prop :=
  match o with PyStr _ _ => True | _ => False end.

Definition str_of (o : pyobj) : string :=
  match o with PyStr s _ => s | _ => ""%string end.

(** ** Runs *)

(** What read number [p] of [self.is_running] sees. *)
Definition flag (e : env) (p : nat) : bool :=
  match cancel_at e with
  | Some k => (p <? k)%nat
  | None => true
  end.

(** The flag holds what the reads of it have seen. *)
Definition consistent (e : env) (w : world) : Prop :=
  running w = true \/ flag e (polls w) = false.

(** The world after one read of the flag. *)
Definition polled (e : env) (w : world) : world :=
  mk_world (signals w) (cap w) (file w) (frames_read w) (S (polls w)) (flag e (polls w)).

(** [w0] is [w] after one more read of the flag, one more frame and [m]
    progress signals. *)
Definition advanced (w w0 : world) (m : nat) : Prop :=
  file w0 = file w
  /\ cap w0 = cap w
  /\ signals w0 = signals w ++ repeat SigProgress m
  /\ frames_read w0 = S (frames_read w)
  /\ polls w0 = S (polls w).

(** What the loop over [n] frames does to the world: the flag stays
    consistent, the file and the capture are untouched, progress signals
    are all it emits, it has read [c] frames, each after a read of the
    flag that saw [True]; it ends on a read of the flag that saw [False],
    or that saw [True] before the end of the video, or on an exception in
    the last frame read. *)
Definition loop_effect (e : env) (n : nat) (w w' : world) (r : result loop_state) : Prop :=
  consistent e w'
  /\ file w' = file w
  /\ cap w' = cap w
  /\ (exists m, signals w' = signals w ++ repeat SigProgress m)
  /\ exists c,
      frames_read w' = (frames_read w + c)%nat
      /\ (c <= n)%nat
      /\ (forall i, (i < c)%nat -> flag e (polls w + i) = true)
      /\ match r with
         | Ok _ =>
             polls w' = S (polls w + c)
             /\ (flag e (polls w + c) = false
                 \/ (c = n /\ flag e (polls w + c) = true))
         | Raise _ => (0 < c)%nat
         end.

Definition only_progress (l : list signal) : Prop :=
  exists n, l = repeat SigProgress n.

(** The list [run] hands to [write_srt], when the loop ends without an
    exception. *)
Definition candidates (cfg : config) (e : env) : result (list sub) :=
  match snd (run_loop cfg e (frames e) loop_init (set_cap Opened world_init)) with
  | Ok ls => Ok (flush (bld ls))
  | Raise msg => Raise msg
  end.

(** The observations of a run: one per sampled frame (every fifth, from
    frame [idx] on) whose region is not empty, up to the first sample that
    raises. *)
Fixpoint observations (cfg : config) (fs : list frame) (idx : Z)
  : list (float * string) :=
  match fs with
  | [] => []
  | fr :: rest =>
      if (idx mod skip_frames =? 0) && roi_visible cfg fr then
        match (try! ocr_result <- ocr_reply fr; extract_text (threshold cfg) ocr_result) with
        | Ok text => (pos_msec fr, text) :: observations cfg rest (idx + 1)
        | Raise _ => []
        end
      else observations cfg rest (idx + 1)
  end.

(** ** Sample inputs *)

Definition demo_cfg : config := mk_config "in.mp4" "out.srt" (50, 50, 40, 20) default_threshold.

(** A 100 x 100 frame in which the engine reads [text] with score 0.9. *)
Definition text_frame (text : string) (ms : float) : frame :=
  mk_frame 100 100 (Ok (Some [[PyBox []; PyStr text None; PyFloat (Fin (9 # 10))]])) ms.

(** A 100 x 100 frame in which the engine reads nothing. *)
Definition blank_frame (ms : float) : frame := mk_frame 100 100 (Ok None) ms.

(** Sixteen frames, 40 ms apart; the sampled ones (0, 5, 10, 15) show "A",
    "A", "B", "B" inside the region. *)
Definition demo_video : list frame :=
  [text_frame "A" 0; blank_frame 40; blank_frame 80; blank_frame 120; blank_frame 160;
   text_frame "A" 200; blank_frame 240; blank_frame 280; blank_frame 320; blank_frame 360;
   text_frame "B" 400; blank_frame 440; blank_frame 480; blank_frame 520; blank_frame 560;
   text_frame "B" 600].

(** The disk is full at the fifth write. *)
Definition full_disk_env : env :=
  mk_env None 16 demo_video None None (Some (4%nat, "[Errno 28] No space left on device"%string)).

(** The engine fails on the sample of frame 5. *)
Definition engine_fault_env : env :=
  mk_env None 6
    [text_frame "A" 0; blank_frame 40; blank_frame 80; blank_frame 120; blank_frame 160;
     mk_frame 100 100 (Raise "onnxruntime: inference failed") 200]
    None None None.

(** A video whose last two samples carry a position no [timedelta] can
    hold. *)
Definition far_video : list frame :=
  [text_frame "A" 0; blank_frame 40; blank_frame 80; blank_frame 120; blank_frame 160;
   text_frame "A" 200; blank_frame 240; blank_frame 280; blank_frame 320; blank_frame 360;
   text_frame "B" 86400000000000000; blank_frame 440; blank_frame 480; blank_frame 520;
   blank_frame 560; text_frame "B" 86400000000000256].

(** A 40 x 40 frame: the region of [demo_cfg] starts beyond it. *)
Definition small_frame (ms : float) : frame := mk_frame 40 40 (Ok None) ms.

Definition open_A : builder := mk_builder [] (mk_sub "A" 0 0).

(** "A" at 0 ms and at 400 ms; the sample in between (frame 5) is
    [middle]. *)
Definition gap_video (middle : frame) : list frame :=
  [text_frame "A" 0; blank_frame 40; blank_frame 80; blank_frame 120; blank_frame 160;
   middle; blank_frame 240; blank_frame 280; blank_frame 320; blank_frame 360;
   text_frame "A" 400].

(** The scenario of the specification: 250 frames at 25 fps, the text
    "HELLO" in the samples 10 to 39 (frames 50 to 195). *)
Definition hello_video : list frame :=
  map (fun i => let ms := float_of_int (Z.of_nat i * 40) in
                if (50 <=? i)%nat && (i <=? 199)%nat then text_frame "HELLO" ms
                else blank_frame ms)
      (seq 0 250).

(** ** Segments and observations *)

(** The segment [s] has a text, and observations of the stream carry this
    text at its start and at its end. *)
Definition made_of (obs : list (float * string)) (s : sub) : Prop :=
  sub_text s <> ""%string
  /\ In (sub_start s, sub_text s) obs
  /\ In (sub_end s, sub_text s) obs.

(** ** More vocabulary of the worker *)

(** What stands at index 1 of a detection ([None] stands for nothing
    there). *)
Definition text_obj (line : detection) : pyobj := nth 1 line PyNone.

(** The sampled frames among the first [n] frames of a video: the frames
    0, 5, 10, ... *)
Definition samples (n : nat) : nat := Nat.div (n + 4) 5.

(** The signal that ends a run, if any, with no progress signal after
    it. *)
Definition terminal (cfg : config) (tail : list signal) : Prop :=
  tail = [] \/ tail = [SigFinished (output_path cfg)] \/ exists msg, tail = [SigError msg].

(** The sampled frames among the [c] frames from frame [i] on. *)
Fixpoint sampled_among (i : Z) (c : nat) : nat :=
  match c with
  | O => 0
  | S c' => if i mod skip_frames =? 0 then S (sampled_among (i + 1) c')
            else sampled_among (i + 1) c'
  end.

(** What the loop from frame [i] on does to the signals: one progress
    signal per sampled frame it has read, but for a sample that raised. *)
Definition progress_effect (i : Z) (w w' : world) (r : result loop_state) : Prop :=
  exists c,
    frames_read w' = (frames_read w + c)%nat
    /\ match r with
       | Ok _ => signals w' = signals w ++ repeat SigProgress (sampled_among i c)
       | Raise _ =>
           exists c', c = S c'
             /\ (i + Z.of_nat c') mod skip_frames = 0
             /\ signals w' = signals w ++ repeat SigProgress (sampled_among i c')
       end.

(** * [VideoLabel]: the region drawn on the video *)

(** ** [QRect]

    Qt's integer rectangle, as [qrect.h] and [qrect.cpp] define it: the
    corners [x1, y1] and [x2, y2], both inside, so that a rectangle of
    width [w] at [x] has [x2 = x + w - 1]. The coordinates are in [Z].
    [QRect] holds C [int]s, and PySide refuses a Python [int] that is none:
    [Z] computes what they compute as long as no sum leaves the range of
    an [int], which is so for the positions of [near] below; beyond, the
    model does not follow the widget. *)

Module QRect.

Record t : Type := mk {
  x1 : Z;
  y1 : Z;
  x2 : Z;
  y2 : Z
}.

(** [QRect(x, y, w, h)] *)
Definition make (x y w h : Z) : t := mk x y (x + w - 1) (y + h - 1).

(** [QRect()] *)
Definition null : t := mk 0 0 (-1) (-1).

Definition left (r : t) : Z := x1 r.
Definition top (r : t) : Z := y1 r.
Definition right (r : t) : Z := x2 r.
Definition bottom (r : t) : Z := y2 r.
Definition x (r : t) : Z := x1 r.
Definition y (r : t) : Z := y1 r.
Definition width (r : t) : Z := x2 r - x1 r + 1.
Definition height (r : t) : Z := y2 r - y1 r + 1.

Definition isNull (r : t) : bool := (x2 r =? x1 r - 1) && (y2 r =? y1 r - 1).

(** [r.contains(QPoint(px, py))] *)
Definition contains (r : t) (p : Z * Z) : bool :=
  let '(px, py) := p in
  let '(l, rr) := if x2 r <? x1 r - 1 then (x2 r, x1 r) else (x1 r, x2 r) in
  if (px <? l) || (rr <? px) then false
  else
    let '(tp, b) := if y2 r <? y1 r - 1 then (y2 r, y1 r) else (y1 r, y2 r) in
    if (py <? tp) || (b <? py) then false else true.

Definition translate (r : t) (dx dy : Z) : t :=
  mk (x1 r + dx) (y1 r + dy) (x2 r + dx) (y2 r + dy).

Definition setWidth (r : t) (w : Z) : t := mk (x1 r) (y1 r) (x1 r + w - 1) (y2 r).

Definition setHeight (r : t) (h : Z) : t := mk (x1 r) (y1 r) (x2 r) (y1 r + h - 1).

(** [r.setRect(x, y, w, h)] *)
Definition setRect (r : t) (x y w h : Z) : t := make x y w h.

(** [r.intersected(s)], the operator [&]. *)
Definition intersected (r s : t) : t :=
  if isNull r || isNull s then null
  else
    let '(l1, r1) := if x2 r - x1 r + 1 <? 0 then (x2 r, x1 r) else (x1 r, x2 r) in
    let '(l2, r2) := if x2 s - x1 s + 1 <? 0 then (x2 s, x1 s) else (x1 s, x2 s) in
    if (r2 <? l1) || (r1 <? l2) then null
    else
      let '(t1, b1) := if y2 r - y1 r + 1 <? 0 then (y2 r, y1 r) else (y1 r, y2 r) in
      let '(t2, b2) := if y2 s - y1 s + 1 <? 0 then (y2 s, y1 s) else (y1 s, y2 s) in
      if (b2 <? t1) || (b1 <? t2) then null
      else mk (Z.max l1 l2) (Z.max t1 t2) (Z.min r1 r2) (Z.min b1 b2).

End QRect.

(** ** The label *)

(** [drag_mode]: ['move'], ['resize_tl'], ['resize_br']; Python's [None]
    is [None]. *)
Inductive drag : Type :=
| Move
| ResizeTL
| ResizeBR.

Inductive cursor_shape : Type :=
| ArrowCursor
| SizeAllCursor
| SizeFDiagCursor.

(** The attributes of the label the mouse handlers read and write, and
    the cursor they set. *)
Record video_label : Type := mk_video_label {
  roi_rect : QRect.t;
  drag_mode : option drag;
  last_pos : Z * Z;
  cursor : cursor_shape
}.

(** [__init__] (lines 191-203) *)
Definition video_label_init : video_label :=
  mk_video_label (QRect.make 100 200 400 80) None (0, 0) ArrowCursor.

(** The squares around the top left and the bottom right corner. *)
Definition handle_tl (r : QRect.t) : QRect.t :=
  QRect.make (QRect.left r - 5) (QRect.top r - 5) 10 10.

Definition handle_br (r : QRect.t) : QRect.t :=
  QRect.make (QRect.right r - 5) (QRect.bottom r - 5) 10 10.

(** [mousePressEvent] (lines 238-255), [pos] being
    [event.position().toPoint()]. *)
Definition mousePressEvent (pos : Z * Z) (v : video_label) : video_label :=
  let r := roi_rect v in
  let tl := handle_tl r in
  let br := handle_br r in
  let mode :=
    if QRect.contains tl pos then Some ResizeTL
    else if QRect.contains br pos then Some ResizeBR
    else if QRect.contains r pos then Some Move
    else None in
  mk_video_label r mode pos (cursor v).

(** [mouseMoveEvent] (lines 257-299); [lw] and [lh] are the width and the
    height of the label, [self.rect()] being [QRect(0, 0, lw, lh)]. *)
Definition mouseMoveEvent (lw lh : Z) (pos : Z * Z) (v : video_label) : video_label :=
  let r := roi_rect v in
  let tl := handle_tl r in
  let br := handle_br r in
  let cur :=
    if QRect.contains tl pos || QRect.contains br pos then SizeFDiagCursor
    else if QRect.contains r pos then SizeAllCursor
    else ArrowCursor in
  match drag_mode v with
  | None => mk_video_label r None (last_pos v) cur
  | Some mode =>
      let dx := fst pos - fst (last_pos v) in
      let dy := snd pos - snd (last_pos v) in
      let r :=
        match mode with
        | Move => QRect.translate r dx dy
        | ResizeBR =>
            let new_w := Z.max 20 (QRect.width r + dx) in
            let new_h := Z.max 20 (QRect.height r + dy) in
            QRect.setHeight (QRect.setWidth r new_w) new_h
        | ResizeTL =>
            let new_x := QRect.x r + dx in
            let new_y := QRect.y r + dy in
            let new_w := Z.max 20 (QRect.width r - dx) in
            let new_h := Z.max 20 (QRect.height r - dy) in
            if (20 <? new_w) && (20 <? new_h)
            then QRect.setRect r new_x new_y new_w new_h
            else r
        end in
      let r := QRect.intersected r (QRect.make 0 0 lw lh) in
      mk_video_label r (Some mode) pos cur
  end.

(** [mouseReleaseEvent] (lines 301-302) *)
Definition mouseReleaseEvent (v : video_label) : video_label :=
  mk_video_label (roi_rect v) None (last_pos v) (cursor v).

(** What the mouse does to the label, event by event. *)
Inductive mouse_event : Type :=
| Press (pos : Z * Z)
| Motion (pos : Z * Z)
| Release.

Definition mouse_step (lw lh : Z) (v : video_label) (ev : mouse_event) : video_label :=
  match ev with
  | Press pos => mousePressEvent pos v
  | Motion pos => mouseMoveEvent lw lh pos v
  | Release => mouseReleaseEvent v
  end.

Definition mouse_steps (lw lh : Z) (evs : list mouse_event) (v : video_label) : video_label :=
  fold_left (mouse_step lw lh) evs v.

(** ** Vocabulary of the label *)

(** Case analysis on every comparison of the goal. *)
Ltac by_cases :=
  repeat match goal with
         | |- context [?a <? ?b] => destruct (Z.ltb_spec a b)
         | |- context [?a =? ?b] => destruct (Z.eqb_spec a b)
         end.

Ltac unfold_qrect :=
  unfold QRect.intersected, QRect.setRect, QRect.isNull, QRect.make, QRect.null,
    QRect.translate, QRect.setWidth, QRect.setHeight, QRect.width, QRect.height,
    QRect.x, QRect.y, QRect.left, QRect.top, QRect.right, QRect.bottom in *.

(** The rectangle of [mouseMoveEvent] before it is cut to the label, for
    a motion by [dx, dy] in mode [mode]. *)
Definition dragged (mode : drag) (dx dy : Z) (r : QRect.t) : QRect.t :=
  match mode with
  | Move => QRect.translate r dx dy
  | ResizeBR =>
      QRect.setHeight (QRect.setWidth r (Z.max 20 (QRect.width r + dx)))
                      (Z.max 20 (QRect.height r + dy))
  | ResizeTL =>
      if (20 <? Z.max 20 (QRect.width r - dx)) && (20 <? Z.max 20 (QRect.height r - dy))
      then QRect.setRect r (QRect.x r + dx) (QRect.y r + dy)
                         (Z.max 20 (QRect.width r - dx)) (Z.max 20 (QRect.height r - dy))
      else r
  end.

(** A rectangle with its corners in order. *)
Definition proper (r : QRect.t) : Prop :=
  QRect.x1 r <= QRect.x2 r /\ QRect.y1 r <= QRect.y2 r.

(** [r] lies inside a label of [lw] by [lh] pixels. *)
Definition in_view (lw lh : Z) (r : QRect.t) : Prop :=
  0 <= QRect.x1 r /\ QRect.x2 r < lw /\ 0 <= QRect.y1 r /\ QRect.y2 r < lh.

(** The region is gone, or has its corners in order and lies inside the
    label. *)
Definition settled_rect (lw lh : Z) (r : QRect.t) : Prop :=
  r = QRect.null \/ (proper r /\ in_view lw lh r).

(** The region is gone and the bottom right handle is not held. *)
Definition lost (v : video_label) : Prop :=
  roi_rect v = QRect.null /\ drag_mode v <> Some ResizeBR.

(** The positions a mouse reports, and the sizes a label has: within
    [2 ^ 28] pixels of the origin of the label. With such positions, in
    such a label, every coordinate, every difference of two positions and
    every sum the handlers and [QRect] form stays below [2 ^ 31]. *)
Definition reach : Z := 2 ^ 28.

Definition near (p : Z * Z) : Prop :=
  Z.abs (fst p) <= reach /\ Z.abs (snd p) <= reach.

Definition near_event (ev : mouse_event) : Prop :=
  match ev with
  | Press pos => near pos
  | Motion pos => near pos
  | Release => True
  end.

Definition near_rect (r : QRect.t) : Prop :=
  near (QRect.x1 r, QRect.y1 r) /\ near (QRect.x2 r, QRect.y2 r).

(** The press is at a point of the label. *)
Definition pressed_inside (ev : mouse_event) : Prop :=
  match ev with
  | Press (px, py) => 0 <= px /\ 0 <= py
  | _ => True
  end.

(** * [MainWindow]: the buttons and the worker *)

(** The functions of [os] the window calls, those of the platform it
    runs on. *)
Record os_path : Type := mk_os_path {
  getcwd : string;
  abspath : string -> string;
  dirname : string -> string;
  basename : string -> string;
  splitext_root : string -> string;
  join : string -> string -> string
}.

(** The texts of the status label: "ready", "video loaded, adjust the
    green box", "initialising RapidOCR", "cancelling", "done", "an error
    occurred", or the message of a progress signal. *)
Inductive status_text : Type :=
| StReady
| StLoaded
| StInitialising
| StCancelling
| StDone
| StFailed
| StMessage (msg : string).

(** The message boxes: the warning to adjust the box first, the success
    with the saved path, the error with its description. *)
Inductive dialog : Type :=
| WarnAdjustBox
| InfoSaved (path : string)
| CriticalError (err : string).

(** An [OCRWorker] as the window holds it: what it was built with, and
    whether the window has called its [stop()]. *)
Record worker : Type := mk_worker {
  worker_cfg : config;
  stop_called : bool
}.

(** The attributes and widgets of the window that its handlers of the
    buttons and of the worker's signals read and write. The preview
    ([load_video], [show_frame]: the capture, the slider, the time labels)
    is not part of it. *)
Record window : Type := mk_window {
  win_video_path : string;
  output_dir : string;
  output_filename : string;
  le_save_path : string;
  btn_add : bool;
  btn_run : bool;
  btn_cancel : bool;
  pbar : Z;
  lbl_status : status_text;
  ocr_thread : option worker;
  dialogs : list dialog
}.

(** [QProgressBar.setValue] on a bar with the range it is created with, 0
    to 100: a value outside the range is ignored. *)
Definition pbar_setValue (val old : Z) : Z :=
  if (0 <=? val) && (val <=? 100) then val else old.

(** [__init__] and [init_ui] (lines 309-398) *)
Definition window_init (os : os_path) : window :=
  mk_window "" (getcwd os) "output.srt" (join os (getcwd os) "output.srt")
            true false false 0 StReady None [].

(** [open_video] (lines 402-417), [file_path] being what the file dialog
    returns, the empty string when it is dismissed. [load_video], which
    touches the preview only, is taken to return. *)
Definition open_video (os : os_path) (file_path : string) (win : window) : window :=
  if Py.truthy file_path then
    let dir := dirname os (abspath os file_path) in
    let base_name := splitext_root os (basename os file_path) in
    let filename := (base_name ++ ".srt")%string in
    mk_window file_path dir filename (join os dir filename)
              (btn_add win) true (btn_cancel win) (pbar win) StLoaded
              (ocr_thread win) (dialogs win)
  else win.

(** [choose_save_dir] (lines 469-473) *)
Definition choose_save_dir (os : os_path) (d : string) (win : window) : window :=
  if Py.truthy d then
    mk_window (win_video_path win) d (output_filename win)
              (join os d (output_filename win))
              (btn_add win) (btn_run win) (btn_cancel win) (pbar win) (lbl_status win)
              (ocr_thread win) (dialogs win)
  else win.

(** [reset_ui] (lines 531-534) *)
Definition reset_ui (win : window) : window :=
  mk_window (win_video_path win) (output_dir win) (output_filename win) (le_save_path win)
            true true false (pbar win) (lbl_status win) (ocr_thread win) (dialogs win).

(** [start_ocr] (lines 486-508), [real_roi] being what
    [self.video_label.get_real_roi()] returns. The worker is built with
    the default threshold. *)
Definition start_ocr (real_roi : Z * Z * Z * Z) (win : window) : window :=
  if negb (Py.truthy (win_video_path win)) then win
  else
    let out_path := le_save_path win in
    let '(_, _, rw, rh) := real_roi in
    if (rw <? 10) || (rh <? 10) then
      mk_window (win_video_path win) (output_dir win) (output_filename win)
                (le_save_path win) (btn_add win) (btn_run win) (btn_cancel win)
                (pbar win) (lbl_status win) (ocr_thread win)
                (dialogs win ++ [WarnAdjustBox])
    else
      mk_window (win_video_path win) (output_dir win) (output_filename win)
                (le_save_path win) false false true 0 StInitialising
                (Some (mk_worker
                         (mk_config (win_video_path win) out_path real_roi default_threshold)
                         false))
                (dialogs win).

(** [cancel_ocr] (lines 510-514), [is_running_now] being what
    [self.ocr_thread.isRunning()] returns. *)
Definition cancel_ocr (is_running_now : bool) (win : window) : window :=
  match ocr_thread win with
  | Some wk =>
      if is_running_now then
        mk_window (win_video_path win) (output_dir win) (output_filename win)
                  (le_save_path win) (btn_add win) (btn_run win) false
                  (pbar win) StCancelling
                  (Some (mk_worker (worker_cfg wk) true))
                  (dialogs win)
      else win
  | None => win
  end.

(** [update_progress] (lines 516-518) *)
Definition update_progress (val : Z) (msg : string) (win : window) : window :=
  mk_window (win_video_path win) (output_dir win) (output_filename win) (le_save_path win)
            (btn_add win) (btn_run win) (btn_cancel win)
            (pbar_setValue val (pbar win)) (StMessage msg)
            (ocr_thread win) (dialogs win).

(** [ocr_finished] (lines 520-524) *)
Definition ocr_finished (saved_path : string) (win : window) : window :=
  reset_ui
    (mk_window (win_video_path win) (output_dir win) (output_filename win)
               (le_save_path win) (btn_add win) (btn_run win) (btn_cancel win)
               100 StDone (ocr_thread win) (dialogs win ++ [InfoSaved saved_path])).

(** [ocr_error] (lines 526-529) *)
Definition ocr_error (err : string) (win : window) : window :=
  reset_ui
    (mk_window (win_video_path win) (output_dir win) (output_filename win)
               (le_save_path win) (btn_add win) (btn_run win) (btn_cancel win)
               (pbar win) StFailed (ocr_thread win) (dialogs win ++ [CriticalError err])).

(** ** The events of the window *)

(** The signals of the worker as the window receives them, the progress
    signal with its percentage and its text. *)
Inductive ui_signal : Type :=
| UProgress (val : Z) (msg : string)
| UFinished (path : string)
| UError (err : string).

Definition erase (u : ui_signal) : signal :=
  match u with
  | UProgress _ _ => SigProgress
  | UFinished path => SigFinished path
  | UError err => SigError err
  end.

(** A click on a button, with what the handler then learns from a dialog,
    from the label or from the thread; a text typed into the path field; a
    signal of the worker. *)
Inductive ui_event : Type :=
| ClickAdd (file_path : string)
| ClickSetPath (d : string)
| ClickRun (real_roi : Z * Z * Z * Z)
| ClickCancel (is_running_now : bool)
| EditPath (text : string)
| Signal (u : ui_signal).

Definition set_save_path (text : string) (win : window) : window :=
  mk_window (win_video_path win) (output_dir win) (output_filename win) text
            (btn_add win) (btn_run win) (btn_cancel win) (pbar win) (lbl_status win)
            (ocr_thread win) (dialogs win).

(** Qt calls the handler a signal is connected to, one handler after the
    other; a button that is disabled does not emit [clicked]; the signals
    of a worker are connected when [start_ocr] has built it (lines
    504-507), so that none arrives before there is one. *)
Definition ui_step (os : os_path) (win : window) (ev : ui_event) : window :=
  match ev with
  | ClickAdd file_path => if btn_add win then open_video os file_path win else win
  | ClickSetPath d => choose_save_dir os d win
  | ClickRun real_roi => if btn_run win then start_ocr real_roi win else win
  | ClickCancel is_running_now => if btn_cancel win then cancel_ocr is_running_now win else win
  | EditPath text => set_save_path text win
  | Signal u =>
      match ocr_thread win with
      | None => win
      | Some _ =>
          match u with
          | UProgress val msg => update_progress val msg win
          | UFinished path => ocr_finished path win
          | UError err => ocr_error err win
          end
      end
  end.

Definition ui_steps (os : os_path) (evs : list ui_event) (win : window) : window :=
  fold_left (ui_step os) evs win.

(** The signals among the events, payload erased. *)
Definition signals_of (evs : list ui_event) : list signal :=
  flat_map (fun ev => match ev with Signal u => [erase u] | _ => [] end) evs.

(** ** Vocabulary of the window *)

(** Nothing can be clicked: the three buttons are disabled. *)
Definition locked (win : window) : Prop :=
  btn_add win = false /\ btn_run win = false /\ btn_cancel win = false.

(** The window waits for the user: a video can be added or an extraction
    started, nothing cancelled. *)
Definition idle (win : window) : Prop :=
  btn_add win = true /\ btn_run win = true /\ btn_cancel win = false.

(** A video cannot be added and no extraction started, and there is a
    worker. *)
Definition busy (win : window) : Prop :=
  btn_add win = false /\ btn_run win = false /\ ocr_thread win <> None.

(** An event that is not the end of a worker. *)
Definition quiet (ev : ui_event) : Prop :=
  match ev with
  | Signal (UFinished _) => False
  | Signal (UError _) => False
  | _ => True
  end.

(** What holds of the window whatever has happened: the cancel button is
    enabled only while the two others are disabled and a worker exists; the
    run button only when a video is loaded, and a worker exists only then;
    and a worker was built on a video, with a region of 10 by 10 pixels at
    least and the default threshold. *)
Definition window_ok (win : window) : Prop :=
  (btn_cancel win = true ->
   btn_add win = false /\ btn_run win = false /\ ocr_thread win <> None)
  /\ (btn_run win = true -> win_video_path win <> ""%string)
  /\ (ocr_thread win <> None -> win_video_path win <> ""%string)
  /\ (forall wk, ocr_thread win = Some wk ->
        video_path (worker_cfg wk) <> ""%string
        /\ threshold (worker_cfg wk) = default_threshold
        /\ exists rx ry rw rh,
            roi (worker_cfg wk) = (rx, ry, rw, rh) /\ 10 <= rw /\ 10 <= rh).

(** An [os] for the examples, right on the one path they use,
    [/videos/film.mp4]. *)
Definition demo_os : os_path :=
  mk_os_path "/home/user" (fun p => p) (fun _ => "/videos"%string) (fun p => p)
             (fun _ => "film"%string) (fun a b => (a ++ "/" ++ b)%string).

(** The window after [/videos/film.mp4] has been added. *)
Definition demo_window : window :=
  ui_steps demo_os [ClickAdd "/videos/film.mp4"%string] (window_init demo_os).

(** * Properties *)

#[local] Open Scope string_scope.
#[local] Open Scope Z_scope.

(** ** Strings without a dot *)

Section Dots.

Variable c : ascii.

Lemma contains_app (a b : string) :
  Py.contains c (a ++ b) = Py.contains c a || Py.contains c b.
Proof.
  induction a as [|d a IH]; simpl; [reflexivity|].
  rewrite IH. now rewrite orb_assoc.
Qed.

Lemma split_without (s : string) :
  Py.contains c s = false -> Py.split c s = [s].
Proof.
  induction s as [|d s IH]; simpl; [reflexivity|].
  intros H. apply orb_false_elim in H as [Hd Hs].
  rewrite Hd, (IH Hs). reflexivity.
Qed.

Lemma split_at_first (a b : string) :
  Py.contains c a = false ->
  Py.split c (a ++ String c b) = a :: Py.split c b.
Proof.
  induction a as [|d a IH]; simpl.
  - intros _. now rewrite Ascii.eqb_refl.
  - intros H. apply orb_false_elim in H as [Hd Ha].
    rewrite Hd, (IH Ha). reflexivity.
Qed.

End Dots.

Lemma dotless_app (a b : string) : dotless a -> dotless b -> dotless (a ++ b).
Proof.
  unfold dotless. intros Ha Hb. now rewrite contains_app, Ha, Hb.
Qed.

Lemma dotless_uint (d : Decimal.uint) : dotless (NilEmpty.string_of_uint d).
Proof.
  unfold dotless. induction d; simpl; auto.
Qed.

Lemma dotless_format_d (n : Z) : dotless (Py.format_d n).
Proof.
  unfold Py.format_d, NilZero.string_of_int.
  destruct (Z.to_int n) as [d|d]; unfold NilZero.string_of_uint.
  - destruct d; try reflexivity; apply dotless_uint.
  - apply (dotless_app "-"); [reflexivity|].
    destruct d; try reflexivity; apply dotless_uint.
Qed.

Lemma dotless_zeros (n : nat) : dotless (Py.zeros n).
Proof.
  unfold dotless. induction n; simpl; auto.
Qed.

Lemma dotless_format_0d (width : nat) (n : Z) : dotless (Py.format_0d width n).
Proof.
  unfold Py.format_0d. destruct (n <? 0).
  - apply (dotless_app "-"); [reflexivity|].
    apply dotless_app; [apply dotless_zeros | apply dotless_format_d].
  - apply dotless_app; [apply dotless_zeros | apply dotless_format_d].
Qed.

Create HintDb dots.
#[local] Hint Resolve dotless_app dotless_format_d dotless_format_0d : dots.

(** ** The timestamp text *)

Lemma timedelta_str_clock (td : timedelta) :
  timedelta_str td =
  if td_microseconds td =? 0 then clock_text td
  else clock_text td ++ "." ++ Py.format_0d 6 (td_microseconds td).
Proof. reflexivity. Qed.

Lemma dotless_clock_text (td : timedelta) : dotless (clock_text td).
Proof.
  unfold clock_text. cbv zeta.
  assert (H : forall a b c, dotless (Py.format_d a ++ ":" ++ Py.format_0d 2 b
                                      ++ ":" ++ Py.format_0d 2 c)).
  { intros. repeat (apply dotless_app; auto with dots); reflexivity. }
  destruct (td_days td =? 0); [apply H|].
  apply dotless_app; auto with dots.
  apply (dotless_app " day").
  - reflexivity.
  - apply dotless_app; [destruct (Z.abs (td_days td) =? 1); reflexivity|].
    apply (dotless_app ", "); [reflexivity | apply H].
Qed.

(** What [ms_to_srt_time] returns: the clock text of [str(td)], a comma,
    three characters; it raises what [timedelta] raises. *)
Lemma ms_to_srt_time_clock (ms : float) :
  ms_to_srt_time ms
  = (try! td <- timedelta_of_seconds (ms / 1000)%float;
     Ok (clock_text td ++ "," ++ millis_text td)).
Proof.
  unfold ms_to_srt_time. cbv zeta.
  destruct (timedelta_of_seconds (ms / 1000)%float) as [td|msg]; [|reflexivity].
  simpl rbind. rewrite timedelta_str_clock. unfold millis_text.
  pose proof (dotless_clock_text td) as Hc.
  destruct (td_microseconds td =? 0).
  - now rewrite Hc.
  - assert (Hdot : Py.contains "." (clock_text td ++ "." ++ Py.format_0d 6 (td_microseconds td))
                   = true).
    { rewrite contains_app. simpl. now rewrite orb_true_r. }
    rewrite Hdot.
    change (clock_text td ++ "." ++ Py.format_0d 6 (td_microseconds td))
      with (clock_text td ++ String "." (Py.format_0d 6 (td_microseconds td))).
    rewrite (split_at_first "." _ _ Hc).
    now rewrite split_without by apply dotless_format_0d.
Qed.

Lemma string_app_assoc (a b c : string) : (a ++ b) ++ c = a ++ (b ++ c).
Proof. induction a as [|x a IH]; simpl; congruence. Qed.

(** C1. [ms_to_srt_time] does not produce the [HH:MM:SS,mmm] its docstring
    and the claim promise: the hours are not padded ([format(0)] is
    ["0:00:00,000"], [format(3661000)] is ["1:01:01,000"], [format(1500)] is
    ["0:00:01,500"]), and from 24 hours on they wrap into a day count
    (25 hours is ["1 day, 1:00:00,000"]). The fraction is three digits, and
    [",000"] when the remainder is zero. The milliseconds of the claim are
    given as floats, which is what the worker passes; for these numbers
    [ms / 1000] is the same float when [ms] is an [int]. *)
Theorem ms_to_srt_time_hours_unpadded :
  ms_to_srt_time 0 = Ok "0:00:00,000"
  /\ ms_to_srt_time 3661000 = Ok "1:01:01,000"
  /\ ms_to_srt_time 1500 = Ok "0:00:01,500"
  /\ ms_to_srt_time 90000000 = Ok "1 day, 1:00:00,000"
  /\ ms_to_srt_time 0 <> Ok "00:00:00,000"
  /\ ms_to_srt_time 3661000 <> Ok "01:01:01,000"
  /\ ms_to_srt_time 1500 <> Ok "00:00:01,500".
Proof.
  repeat split; try reflexivity; vm_compute; discriminate.
Qed.

(** Floating point at work. From 2^33 seconds on the float [ms / 1000]
    cannot hold a millisecond, and 8589934592001 ms come out with [,000].
    A quotient rounded to 1000000000 days is refused, one rounded to
    -999999999 days accepted; the days have to fit a C [int]; a NaN and an
    infinity are refused by [int()]. The microseconds are rounded and then
    cut to milliseconds: 700.0000000000001 ms gives [,700], half a
    microsecond gives [,000], 999.5 ms gives [,999]. A negative time counts
    back from a day. The difference of two timestamps is rounded too:
    800.0 - 700.0000000000001 is less than 100, 100.1 - 0.1 is not. *)
Example ms_to_srt_time_floats :
  ms_to_srt_time 8589934592001 = Ok "99420 days, 12:56:32,000"
  /\ ms_to_srt_time 86400000000000000
     = Raise "days=1000000000; must have magnitude <= 999999999"
  /\ ms_to_srt_time (-86399999913600000) = Ok "-999999999 days, 0:00:00,000"
  /\ ms_to_srt_time 100000000000000000000
     = Raise "Python int too large to convert to C int"
  /\ ms_to_srt_time nan = Raise "cannot convert float NaN to integer"
  /\ ms_to_srt_time infinity = Raise "cannot convert float infinity to integer"
  /\ ms_to_srt_time 0x1.5e00000000001p+9 = Ok "0:00:00,700"
  /\ ms_to_srt_time 0x1.0624dd2f1a9fcp-11 = Ok "0:00:00,000"
  /\ ms_to_srt_time 999.5 = Ok "0:00:00,999"
  /\ ms_to_srt_time (-1) = Ok "-1 day, 23:59:59,999"
  /\ (800 - 0x1.5e00000000001p+9 <? 100)%float = true
  /\ (0x1.9066666666666p+6 - 0x1.999999999999ap-4 <? 100)%float = false.
Proof.
  repeat split; vm_compute; reflexivity.
Qed.

(** ** The order and the differences of floats *)

Lemma SFcompare_refl (x : spec_float) : x <> S754_nan -> SFcompare x x = Some Eq.
Proof.
  destruct x as [[|]|[|]| |[|] m e]; simpl; try congruence; intros _;
    now rewrite Z.compare_refl, Pos.compare_cont_refl.
Qed.

Lemma number_spec (x : float) : number x <-> Prim2SF x <> S754_nan.
Proof.
  unfold number, is_nan. rewrite eqb_spec. unfold SFeqb. split.
  - intros H E. rewrite E in H. discriminate.
  - intros H. now rewrite SFcompare_refl.
Qed.

Lemma fle_refl (x : float) : number x -> fle x x.
Proof.
  intros H. apply number_spec in H. unfold fle. rewrite leb_spec. unfold SFleb.
  now rewrite SFcompare_refl.
Qed.

Lemma SFleb_SFltb_trans (x y z : spec_float) :
  SFleb x y = true -> SFltb y z = true -> SFltb x z = true.
Proof.
  unfold SFleb, SFltb.
  destruct x as [sx|sx| |sx mx ex], y as [sy|sy| |sy my ey], z as [sz|sz| |sz mz ez];
    simpl; try discriminate;
    try (destruct sx; discriminate || reflexivity);
    try (destruct sx, sy; discriminate || reflexivity);
    try (destruct sx, sy, sz; discriminate || reflexivity);
    try (destruct sy, sz; discriminate || reflexivity);
    try (destruct sx, sz; discriminate || reflexivity).
  all: destruct sx, sy, sz; try discriminate; try reflexivity.
  all: destruct (Z.compare_spec ex ey), (Z.compare_spec ey ez), (Z.compare_spec ex ez);
    simpl; try discriminate; try reflexivity; try lia; subst.
  all: rewrite ?Pos.compare_cont_spec; unfold Pos.switch_Eq;
    destruct (Pos.compare_spec mx my), (Pos.compare_spec my mz), (Pos.compare_spec mx mz);
    simpl; try discriminate; try reflexivity; try lia.
Qed.

Lemma fle_flt_trans (x y z : float) : fle x y -> flt y z -> flt x z.
Proof.
  unfold fle, flt. rewrite leb_spec, !ltb_spec. apply SFleb_SFltb_trans.
Qed.

Lemma flt_fle (x y : float) : flt x y -> fle x y.
Proof.
  unfold fle, flt. rewrite leb_spec, ltb_spec. unfold SFleb, SFltb.
  now destruct (SFcompare (Prim2SF x) (Prim2SF y)) as [[| |]|].
Qed.

Lemma feqb_not_ltb (x y : float) : (x =? y)%float = true -> (x <? y)%float = false.
Proof.
  rewrite eqb_spec, ltb_spec. unfold SFeqb, SFltb.
  now destruct (SFcompare (Prim2SF x) (Prim2SF y)) as [[| |]|].
Qed.

Lemma finite_spec (x : float) :
  is_finite x = true ->
  (exists s, Prim2SF x = S754_zero s) \/ (exists s m e, Prim2SF x = S754_finite s m e).
Proof.
  unfold is_finite, is_nan, is_infinity. rewrite !eqb_spec, abs_spec.
  destruct (Prim2SF x) as [s|s| |s m e]; simpl.
  - intros _. left. now exists s.
  - destruct s; discriminate.
  - discriminate.
  - intros _. right. now exists s, m, e.
Qed.

Lemma sub_self_short (t : float) : is_finite t = true -> (t - t <? 100)%float = true.
Proof.
  intros H. rewrite ltb_spec, sub_spec.
  destruct (finite_spec t H) as [[s ->]|(s & m & e & ->)].
  - destruct s; reflexivity.
  - unfold SF64sub, SFsub. rewrite Z.sub_diag. reflexivity.
Qed.

(** ** The segment builder *)

#[local] Open Scope list_scope.

Lemma truthy_true (s : string) : Py.truthy s = true <-> s <> "".
Proof.
  unfold Py.truthy. destruct (String.eqb_spec s ""); simpl; split; congruence.
Qed.

Lemma truthy_false (s : string) : Py.truthy s = false <-> s = "".
Proof.
  unfold Py.truthy. destruct (String.eqb_spec s ""); simpl; split; congruence.
Qed.

Lemma eqb_differ (a b : string) : a <> b -> String.eqb a b = false.
Proof. intros H. now apply String.eqb_neq. Qed.

(** The six cells of the transition table. *)
Lemma step_open_new (L : list sub) (cur : sub) (t : float) (s : string) :
  sub_text cur = "" -> s <> "" ->
  builder_step (mk_builder L cur) t s = mk_builder L (mk_sub s t t).
Proof.
  intros Hc Hs. unfold builder_step. simpl.
  rewrite (proj2 (truthy_true s) Hs), Hc.
  rewrite eqb_differ by congruence. reflexivity.
Qed.

Lemma step_stay_idle (L : list sub) (cur : sub) (t : float) :
  sub_text cur = "" ->
  builder_step (mk_builder L cur) t "" = mk_builder L cur.
Proof.
  intros Hc. unfold builder_step. simpl. now rewrite Hc.
Qed.

Lemma step_extend (L : list sub) (cur : sub) (t : float) (s : string) :
  s <> "" -> sub_text cur = s ->
  builder_step (mk_builder L cur) t s = mk_builder L (mk_sub s (sub_start cur) t).
Proof.
  intros Hs <-. unfold builder_step. simpl.
  now rewrite (proj2 (truthy_true _) Hs), String.eqb_refl.
Qed.

Lemma step_change (L : list sub) (cur : sub) (t : float) (s : string) :
  sub_text cur <> "" -> s <> "" -> s <> sub_text cur ->
  builder_step (mk_builder L cur) t s = mk_builder (L ++ [cur]) (mk_sub s t t).
Proof.
  intros Hc Hs Hd. unfold builder_step. simpl.
  rewrite (proj2 (truthy_true s) Hs), (proj2 (truthy_true _) Hc).
  rewrite eqb_differ by congruence. reflexivity.
Qed.

Lemma step_disappear (L : list sub) (cur : sub) (t : float) :
  sub_text cur <> "" ->
  builder_step (mk_builder L cur) t "" = mk_builder (L ++ [cur]) no_sub.
Proof.
  intros Hc. unfold builder_step. simpl.
  now rewrite (proj2 (truthy_true _) Hc).
Qed.

(** Whatever the state, a text that is not the open one leaves the flushed
    list closed and starts afresh. *)
Lemma step_other_text (st : builder) (t : float) (s : string) :
  s <> sub_text (current_sub st) ->
  builder_step st t s
  = mk_builder (flush st ++ subtitles (builder_step builder_init t s))
               (current_sub (builder_step builder_init t s)).
Proof.
  intros Hd. destruct st as [L cur]. simpl in Hd. unfold flush. simpl subtitles.
  simpl current_sub.
  destruct (string_dec (sub_text cur) "") as [Hc|Hc];
    destruct (string_dec s "") as [Hs|Hs]; subst.
  - congruence.
  - rewrite (proj2 (truthy_false _) Hc).
    rewrite step_open_new by assumption.
    unfold builder_init. rewrite step_open_new by (auto; reflexivity).
    simpl. now rewrite app_nil_r.
  - rewrite (proj2 (truthy_true _) Hc).
    rewrite step_disappear by assumption.
    unfold builder_init. rewrite step_stay_idle by reflexivity.
    simpl. now rewrite app_nil_r.
  - rewrite (proj2 (truthy_true _) Hc).
    rewrite step_change by assumption.
    unfold builder_init. rewrite step_open_new by (auto; reflexivity).
    simpl. now rewrite app_nil_r.
Qed.

Lemma step_prepend (L : list sub) (st : builder) (t : float) (s : string) :
  builder_step (prepend L st) t s = prepend L (builder_step st t s).
Proof.
  destruct st as [S cur]. unfold prepend, builder_step. simpl.
  destruct (Py.truthy s), (String.eqb (sub_text cur) s), (Py.truthy (sub_text cur));
    simpl; rewrite ?app_assoc; reflexivity.
Qed.

Lemma observe_from_prepend (L : list sub) (obs : list (float * string)) (st : builder) :
  observe_from (prepend L st) obs = prepend L (observe_from st obs).
Proof.
  revert st. induction obs as [|o obs IH]; intros st; simpl; [reflexivity|].
  unfold observe_from in *. simpl. now rewrite step_prepend, IH.
Qed.

Lemma flush_prepend (L : list sub) (st : builder) :
  flush (prepend L st) = L ++ flush st.
Proof.
  unfold flush, prepend. simpl.
  destruct (Py.truthy (sub_text (current_sub st))); now rewrite ?app_assoc.
Qed.

Lemma observe_from_app (st : builder) (a b : list (float * string)) :
  observe_from st (a ++ b) = observe_from (observe_from st a) b.
Proof. apply fold_left_app. Qed.

Lemma observe_from_cons (st : builder) (o : float * string) (obs : list (float * string)) :
  observe_from st (o :: obs) = observe_from (builder_step st (fst o) (snd o)) obs.
Proof. reflexivity. Qed.

Lemma step_text (st : builder) (t : float) (s : string) :
  sub_text (current_sub (builder_step st t s)) = s.
Proof.
  destruct st as [L cur]. unfold builder_step. simpl.
  destruct (Py.truthy s) eqn:Hs.
  - destruct (String.eqb_spec (sub_text cur) s); simpl; congruence.
  - apply truthy_false in Hs. subst.
    destruct (Py.truthy (sub_text cur)) eqn:Hc; simpl; [reflexivity|].
    now apply truthy_false.
Qed.

(** The open text is the text of the last observation. *)
Lemma observe_text (obs : list (float * string)) (st : builder) :
  sub_text (current_sub (observe_from st obs))
  = match obs with [] => sub_text (current_sub st) | _ => last_text obs end.
Proof.
  revert st. induction obs as [|o obs IH]; intros st; [reflexivity|].
  rewrite observe_from_cons, IH. unfold last_text.
  destruct obs; [apply step_text | reflexivity].
Qed.

Lemma observe_last_text (obs : list (float * string)) :
  sub_text (current_sub (observe obs)) = last_text obs.
Proof.
  unfold observe. rewrite observe_text. destruct obs; reflexivity.
Qed.

Lemma last_cons_default {A} (l : list A) (x d d' : A) :
  last (x :: l) d = last (x :: l) d'.
Proof.
  revert x. induction l as [|y l IH]; intros x; [reflexivity|].
  change (last (y :: l) d = last (y :: l) d'). apply IH.
Qed.

Lemma observe_extend (L : list sub) (s : string) (ts : list float) (a b : float) :
  s <> "" ->
  observe_from (mk_builder L (mk_sub s a b)) (run_of s ts)
  = mk_builder L (mk_sub s a (last ts b)).
Proof.
  intros Hs. revert b. induction ts as [|t ts IH]; intros b; [reflexivity|].
  simpl run_of. rewrite observe_from_cons. simpl fst. simpl snd.
  rewrite (step_extend L (mk_sub s a b) t s Hs eq_refl). simpl.
  rewrite IH. destruct ts as [|z ts]; [reflexivity|].
  now rewrite (last_cons_default ts z t b).
Qed.

Lemma observe_run (st : builder) (s : string) (t0 : float) (ts : list float) :
  s <> "" -> sub_text (current_sub st) <> s ->
  observe_from st (run_of s (t0 :: ts))
  = mk_builder (flush st) (mk_sub s t0 (last ts t0)).
Proof.
  intros Hs Hd. simpl run_of. rewrite observe_from_cons. simpl fst. simpl snd.
  rewrite step_other_text by congruence.
  unfold builder_init. rewrite step_open_new by (auto; reflexivity). simpl.
  rewrite app_nil_r. now apply observe_extend.
Qed.

Lemma build_nil : build [] = [].
Proof. reflexivity. Qed.

(** Observations that do not start with the open text close it first and
    then build as from the start. *)
Lemma flush_observe_other (st : builder) (post : list (float * string)) :
  post = [] \/ first_text post <> sub_text (current_sub st) ->
  flush (observe_from st post) = flush st ++ build post.
Proof.
  intros [->|Hd]; [simpl; now rewrite build_nil, app_nil_r|].
  destruct post as [|[t s] rest]; [simpl; now rewrite build_nil, app_nil_r|].
  unfold first_text in Hd. simpl in Hd.
  rewrite observe_from_cons. simpl fst. simpl snd.
  rewrite step_other_text by assumption.
  change (mk_builder (flush st ++ subtitles (builder_step builder_init t s))
                     (current_sub (builder_step builder_init t s)))
    with (prepend (flush st) (builder_step builder_init t s)).
  rewrite observe_from_prepend, flush_prepend. reflexivity.
Qed.

(** A maximal run of one non-empty text makes one segment, from its first
    timestamp to its last. *)
Lemma build_run (pre post : list (float * string)) (s : string) (t0 : float)
    (ts : list float) :
  s <> "" -> last_text pre <> s -> first_text post <> s ->
  build (pre ++ run_of s (t0 :: ts) ++ post)
  = build pre ++ [mk_sub s t0 (last ts t0)] ++ build post.
Proof.
  intros Hs Hpre Hpost. unfold build, observe.
  rewrite !observe_from_app.
  rewrite observe_run; [|assumption|].
  - rewrite flush_observe_other by (right; simpl; assumption).
    unfold flush at 1. simpl.
    rewrite (proj2 (truthy_true s) Hs). now rewrite <- app_assoc.
  - fold (observe pre). now rewrite observe_last_text.
Qed.

(** C3. The segment builder follows the state machine: a maximal run of
    one non-empty text (the text before it and the text after it differ
    from it) yields exactly one segment, from the first timestamp of the run
    to the last, between the segments of what comes before and after; the
    stream [(0,A), (100,A), (200,A), (300,empty)] yields the one closed
    segment (A, 0, 200); a different non-empty text closes the open segment
    and opens one with start = end = its timestamp; the other cells of the
    transition table hold as well. *)
Theorem builder_state_machine :
  (forall pre post s t0 ts,
      s <> "" -> last_text pre <> s -> first_text post <> s ->
      build (pre ++ run_of s (t0 :: ts) ++ post)
      = build pre ++ [mk_sub s t0 (last ts t0)] ++ build post)
  /\ observe [(0, "A"); (100, "A"); (200, "A"); (300, "")]%float
     = mk_builder [mk_sub "A" 0 200] no_sub
  /\ build [(0, "A"); (100, "A"); (200, "A"); (300, "")]%float = [mk_sub "A" 0 200]
  /\ (forall L cur t s,
         sub_text cur <> "" -> s <> "" -> s <> sub_text cur ->
         builder_step (mk_builder L cur) t s = mk_builder (L ++ [cur]) (mk_sub s t t))
  /\ (forall L cur t s,
         s <> "" -> sub_text cur = s ->
         builder_step (mk_builder L cur) t s = mk_builder L (mk_sub s (sub_start cur) t))
  /\ (forall L cur t,
         sub_text cur <> "" ->
         builder_step (mk_builder L cur) t "" = mk_builder (L ++ [cur]) no_sub)
  /\ (forall L cur t s,
         sub_text cur = "" -> s <> "" ->
         builder_step (mk_builder L cur) t s = mk_builder L (mk_sub s t t))
  /\ (forall L cur t,
         sub_text cur = "" ->
         builder_step (mk_builder L cur) t "" = mk_builder L cur).
Proof.
  split; [intros; now apply build_run|].
  split; [reflexivity|]. split; [reflexivity|].
  split; [intros; now apply step_change|].
  split; [intros; now apply step_extend|].
  split; [intros; now apply step_disappear|].
  split; [intros; now apply step_open_new | intros; now apply step_stay_idle].
Qed.

Lemma builder_state_machine_witness :
  build ([(0, "B"); (40, "")]%float ++ run_of "A" [100; 200; 300]%float
         ++ [(400, "C")]%float)
  = build [(0, "B"); (40, "")]%float ++ [mk_sub "A" 100 300] ++ build [(400, "C")]%float.
Proof.
  apply (proj1 builder_state_machine [(0, "B"); (40, "")]%float [(400, "C")]%float
           "A" 100%float [200; 300]%float);
    simpl; discriminate.
Defined.

Lemma step_init_subtitles (t : float) (s : string) :
  subtitles (builder_step builder_init t s) = [].
Proof.
  destruct s; reflexivity.
Qed.

Lemma observe_snoc (obs : list (float * string)) (t : float) (s : string) :
  observe (obs ++ [(t, s)]) = builder_step (observe obs) t s.
Proof. unfold observe. now rewrite observe_from_app. Qed.

(** C4. A stream that ends while a segment is open (its last observation
    has a text) has that segment, the one open after the last observation,
    flushed at the end of the candidate list; the list is the one a
    further observation with another text, or with none, would have closed. *)
Theorem trailing_segment_flushed (obs : list (float * string)) :
  last_text obs <> "" ->
  sub_text (current_sub (observe obs)) = last_text obs
  /\ build obs = subtitles (observe obs) ++ [current_sub (observe obs)]
  /\ (forall t s, s <> last_text obs ->
        subtitles (observe (obs ++ [(t, s)])) = build obs).
Proof.
  intros Hopen. pose proof (observe_last_text obs) as Ht.
  split; [assumption|]. split.
  - unfold build, flush. rewrite Ht.
    now rewrite (proj2 (truthy_true _) Hopen).
  - intros t s Hs. rewrite observe_snoc.
    rewrite step_other_text by congruence. simpl.
    now rewrite step_init_subtitles, app_nil_r.
Qed.

Lemma trailing_segment_flushed_witness :
  build [(0, "A"); (100, "A"); (200, "B")]%float
  = subtitles (observe [(0, "A"); (100, "A"); (200, "B")]%float)
    ++ [current_sub (observe [(0, "A"); (100, "A"); (200, "B")]%float)].
Proof.
  apply (trailing_segment_flushed [(0, "A"); (100, "A"); (200, "B")]%float).
  simpl. discriminate.
Defined.

(** ** Segments in time *)

Section Snoc.

Context {A : Type} (R : A -> A -> Prop).

Lemma sorted_snoc (l : list A) (x : A) :
  StronglySorted R l -> Forall (fun y => R y x) l -> StronglySorted R (l ++ [x]).
Proof.
  induction 1 as [|y l Hl IH Hy]; intros Hx; simpl.
  - repeat constructor.
  - inversion Hx; subst. constructor; [now apply IH|].
    apply Forall_app. split; [assumption | now constructor].
Qed.

Lemma sorted_snoc_inv (l : list A) (x : A) :
  StronglySorted R (l ++ [x]) -> StronglySorted R l /\ Forall (fun y => R y x) l.
Proof.
  induction l as [|y l IH]; simpl; intros H.
  - split; constructor.
  - inversion H as [|? ? Hs Hy]; subst.
    apply IH in Hs as [Hs Hx]. apply Forall_app in Hy as [Hy Hyx].
    split; constructor; try assumption. now inversion Hyx.
Qed.

End Snoc.

(** What the flushed list becomes in one step. *)
Lemma flush_step (st : builder) (t : float) (s : string) :
  flush (builder_step st t s)
  = if Py.truthy s then
      if String.eqb (sub_text (current_sub st)) s
      then subtitles st ++ [mk_sub s (sub_start (current_sub st)) t]
      else flush st ++ [mk_sub s t t]
    else flush st.
Proof.
  destruct st as [L cur]. unfold builder_step, flush. simpl.
  destruct (Py.truthy s) eqn:Hs.
  - destruct (String.eqb_spec (sub_text cur) s) as [E|E]; simpl.
    + now rewrite E, Hs.
    + now rewrite Hs.
  - destruct (Py.truthy (sub_text cur)) eqn:Hc; simpl; [|now rewrite Hc].
    reflexivity.
Qed.

Lemma settled_step (st : builder) (t : float) (s : string) (ahead : list float) :
  settled st (t :: ahead) -> number t -> Forall (flt t) ahead ->
  settled (builder_step st t s) ahead.
Proof.
  intros (Hw & Hs & Ha) Hnum Ht. unfold settled. rewrite flush_step.
  assert (Ha' : Forall (fun s => Forall (fun t => flt (sub_end s) t) ahead) (flush st)).
  { eapply Forall_impl; [|exact Ha]. intros x Hx. now inversion Hx. }
  assert (Hnow : Forall (fun x => flt (sub_end x) t) (flush st)).
  { eapply Forall_impl; [|exact Ha]. intros x Hx. now inversion Hx. }
  destruct (Py.truthy s) eqn:Hts; [|now repeat split].
  destruct (String.eqb_spec (sub_text (current_sub st)) s) as [E|E].
  - unfold flush in *. rewrite E, Hts in *.
    apply Forall_app in Hw as [Hw Hc]. apply sorted_snoc_inv in Hs as [Hs Hb].
    apply Forall_app in Hnow as [_ Hn]. apply Forall_app in Ha' as [Ha' _].
    inversion Hc; subst. inversion Hn; subst. unfold well_timed in *.
    repeat split.
    + apply Forall_app. split; [assumption|]. repeat constructor. simpl.
      apply flt_fle. now apply (fle_flt_trans _ (sub_end (current_sub st))).
    + apply sorted_snoc; assumption.
    + apply Forall_app. split; [assumption|]. repeat constructor. exact Ht.
  - repeat split.
    + apply Forall_app. split; [assumption|]. repeat constructor.
      unfold well_timed. simpl. now apply fle_refl.
    + apply sorted_snoc; assumption.
    + apply Forall_app. split; [assumption|]. repeat constructor. exact Ht.
Qed.

Lemma settled_observe (obs : list (float * string)) (st : builder) :
  settled st (map fst obs) -> numbers obs -> increasing obs ->
  settled (observe_from st obs) [].
Proof.
  revert st. induction obs as [|[t s] obs IH]; intros st Hst Hnum Hinc; [exact Hst|].
  rewrite observe_from_cons. unfold increasing, numbers in *. simpl in *.
  inversion Hinc; subst. inversion Hnum; subst. apply IH; [|assumption|assumption].
  now apply settled_step.
Qed.

(** C10. With timestamps that are numbers and strictly increasing, the
    emitted segments are disjoint in time: each has end >= start, each ends
    strictly before every later one starts, the next one in particular.
    The comparisons are those of Python floats. *)
Theorem segments_disjoint (obs : list (float * string)) :
  numbers obs -> increasing obs ->
  Forall well_timed (build obs)
  /\ StronglySorted before (build obs)
  /\ (forall l1 a b l2, build obs = l1 ++ a :: b :: l2 -> flt (sub_end a) (sub_start b)).
Proof.
  intros Hnum Hinc.
  assert (H : settled (observe obs) []).
  { apply settled_observe; [|assumption|assumption]. repeat split; constructor. }
  destruct H as (Hw & Hs & _). fold (build obs) in Hw, Hs.
  repeat split; try assumption.
  intros l1 a b l2 E. rewrite E in Hs. clear - Hs.
  induction l1 as [|x l1 IH]; simpl in Hs; inversion Hs as [|? ? Hs' Hx]; subst.
  - now inversion Hx.
  - now apply IH.
Qed.

Lemma segments_disjoint_witness :
  Forall well_timed
    (build [(0, "A"); (200, "A"); (400, "B"); (600, ""); (800, "A")]%float)
  /\ StronglySorted before
       (build [(0, "A"); (200, "A"); (400, "B"); (600, ""); (800, "A")]%float).
Proof.
  pose proof (segments_disjoint [(0, "A"); (200, "A"); (400, "B"); (600, ""); (800, "A")]%float)
    as H.
  assert (Hnum : numbers [(0, "A"); (200, "A"); (400, "B"); (600, ""); (800, "A")]%float).
  { unfold numbers. simpl. repeat constructor. }
  assert (Hinc : increasing [(0, "A"); (200, "A"); (400, "B"); (600, ""); (800, "A")]%float).
  { unfold increasing. simpl. repeat constructor. }
  destruct (H Hnum Hinc) as (Hw & Hs & _). split; assumption.
Defined.

(** ** The duration filter and the blocks of the file *)

Lemma f_write_sound (e : env) (f : list string) (chunk : string) :
  write_error e = None -> f_write e f chunk = (f ++ [chunk], Ok tt).
Proof. unfold f_write. now intros ->. Qed.

(** Segments under 100 ms leave no trace, whatever the disk does. *)
Lemma write_srt_loop_filter (e : env) (subs : list sub) (idx : Z) (f : list string) :
  write_srt_loop e idx subs f = write_srt_loop e idx (duration_filter subs) f.
Proof.
  revert idx f. induction subs as [|s subs IH]; intros idx f; [reflexivity|].
  simpl. unfold long_enough.
  destruct (sub_end s - sub_start s <? 100)%float eqn:Hd; simpl; [apply IH|].
  rewrite Hd.
  destruct (ms_to_srt_time (sub_start s)); [|reflexivity].
  destruct (ms_to_srt_time (sub_end s)); [|reflexivity].
  destruct (f_write e f _) as [f1 [[]|]]; [|reflexivity].
  destruct (f_write e f1 _) as [f2 [[]|]]; [|reflexivity].
  destruct (f_write e f2 _) as [f3 [[]|]]; [|reflexivity].
  apply IH.
Qed.

Lemma convertible_text (ms : float) :
  convertible ms = true -> ms_to_srt_time ms = Ok (srt_time ms).
Proof.
  unfold convertible, srt_time. now destruct (ms_to_srt_time ms).
Qed.

Lemma write_srt_loop_sound (e : env) (subs : list sub) (idx : Z) (f : list string) :
  write_error e = None ->
  Forall convertible_sub (duration_filter subs) ->
  write_srt_loop e idx subs f = (f ++ blocks_from idx (duration_filter subs), Ok tt).
Proof.
  intros He. revert idx f. induction subs as [|s subs IH]; intros idx f Hr.
  - simpl. now rewrite app_nil_r.
  - simpl in *. unfold long_enough in *.
    destruct (sub_end s - sub_start s <? 100)%float eqn:Hd; simpl in *; [now apply IH|].
    inversion Hr as [|? ? [Hs He'] Hr']; subst.
    rewrite (convertible_text _ Hs), (convertible_text _ He').
    rewrite !(f_write_sound e) by assumption.
    rewrite IH by assumption.
    unfold srt_block. now rewrite <- !app_assoc.
Qed.

(** On a sound disk, with times that have a text, the file is the blocks
    of the segments the filter keeps. *)
Lemma write_srt_sound (e : env) (subs : list sub) (w : world) :
  disk_sound e ->
  Forall convertible_sub (duration_filter subs) ->
  file (fst (write_srt e subs w)) = Some (blocks_from 1 (duration_filter subs))
  /\ snd (write_srt e subs w) = Ok tt.
Proof.
  intros [Ho Hw] Hr. unfold write_srt. rewrite Ho.
  rewrite write_srt_loop_sound by assumption. now split.
Qed.

Lemma blocks_from_indexed (subs : list sub) (k : nat) :
  blocks_from (Z.of_nat k) subs
  = flat_map (fun p => srt_block (fst p) (snd p))
             (combine (map Z.of_nat (seq k (List.length subs))) subs).
Proof.
  revert k. induction subs as [|s subs IH]; intros k; [reflexivity|].
  cbn [blocks_from List.length seq map combine flat_map fst snd].
  replace (Z.of_nat k + 1) with (Z.of_nat (S k)) by lia. now rewrite IH.
Qed.

Lemma duration_filter_In (s : sub) (subs : list sub) :
  In s (duration_filter subs)
  <-> In s subs /\ (sub_end s - sub_start s <? 100)%float = false.
Proof.
  unfold duration_filter. rewrite filter_In. unfold long_enough.
  now rewrite negb_true_iff.
Qed.

(** C5. The filter of [write_srt] drops exactly the segments for which
    [end - start < 100] holds, computed as Python computes it on floats,
    and keeps all others in their order, the segment with a difference of
    exactly 100 included: the segments it drops leave no trace in the file,
    whatever happens while it is written, and on a sound disk every other
    segment has its block written, in order. *)
Theorem duration_filter_drops_short (e : env) (subs : list sub) (w : world) :
  write_srt e subs w = write_srt e (duration_filter subs) w
  /\ (forall s, In s (duration_filter subs)
                <-> In s subs /\ (sub_end s - sub_start s <? 100)%float = false)
  /\ (forall s, (sub_end s - sub_start s =? 100)%float = true -> duration_filter [s] = [s])
  /\ (forall s, (sub_end s - sub_start s <? 100)%float = true ->
                duration_filter [s] = []
                /\ forall idx f, write_srt_loop e idx [s] f = (f, Ok tt))
  /\ (forall l1 s l2,
         duration_filter (l1 ++ s :: l2)
         = duration_filter l1 ++ (if long_enough s then [s] else []) ++ duration_filter l2)
  /\ (disk_sound e -> Forall convertible_sub (duration_filter subs) ->
      file (fst (write_srt e subs w)) = Some (blocks_from 1 (duration_filter subs))
      /\ snd (write_srt e subs w) = Ok tt).
Proof.
  split.
  { unfold write_srt. now rewrite write_srt_loop_filter. }
  split; [intros s; apply duration_filter_In|].
  split.
  { intros s Hs. unfold duration_filter, long_enough. simpl.
    now rewrite (feqb_not_ltb _ _ Hs). }
  split.
  { intros s Hs. split.
    - unfold duration_filter, long_enough. simpl. now rewrite Hs.
    - intros idx f. simpl. now rewrite Hs. }
  split.
  { intros l1 s l2. unfold duration_filter. rewrite filter_app. simpl.
    destruct (long_enough s); reflexivity. }
  apply write_srt_sound.
Qed.

Lemma duration_filter_drops_short_witness :
  file (fst (write_srt (mk_env None 10 [] None None None)
               [mk_sub "A" 0 99; mk_sub "B" 200 300;
                mk_sub "C" 0x1.5e00000000001p+9 800; mk_sub "D" 1000 1600]
               world_init))
  = Some (blocks_from 1 [mk_sub "B" 200 300; mk_sub "D" 1000 1600])
  /\ snd (write_srt (mk_env None 10 [] None None None)
            [mk_sub "A" 0 99; mk_sub "B" 200 300;
             mk_sub "C" 0x1.5e00000000001p+9 800; mk_sub "D" 1000 1600]
            world_init)
     = Ok tt.
Proof.
  apply (duration_filter_drops_short (mk_env None 10 [] None None None)
           [mk_sub "A" 0 99; mk_sub "B" 200 300;
            mk_sub "C" 0x1.5e00000000001p+9 800; mk_sub "D" 1000 1600]
           world_init).
  - split; reflexivity.
  - repeat constructor.
Defined.

(** C9. [write_srt] writes one block per surviving segment, in order:
    the index, the line "start --> end", the text and the blank line; the
    indices are 1, 2, ... over the survivors alone, without a gap. *)
Theorem serialization_blocks (e : env) (subs : list sub) (w : world) :
  disk_sound e ->
  Forall convertible_sub (duration_filter subs) ->
  file (fst (write_srt e subs w))
  = Some (flat_map (fun p => [(Py.format_d (fst p) ++ newline)%string;
                              (srt_time (sub_start (snd p)) ++ " --> "
                               ++ srt_time (sub_end (snd p)) ++ newline)%string;
                              (sub_text (snd p) ++ newline ++ newline)%string])
                   (combine (indices (List.length (duration_filter subs)))
                            (duration_filter subs)))
  /\ snd (write_srt e subs w) = Ok tt.
Proof.
  intros Hdisk Hr. destruct (write_srt_sound e subs w Hdisk Hr) as [Hfile Hret].
  split; [|exact Hret]. rewrite Hfile. unfold indices.
  pose proof (blocks_from_indexed (duration_filter subs) 1) as E.
  change (Z.of_nat 1) with 1 in E. now rewrite E.
Qed.

Lemma serialization_blocks_witness :
  file (fst (write_srt (mk_env None 10 [] None None None)
               [mk_sub "A" 0 99; mk_sub "B" 200 300; mk_sub "C" 400 1000] world_init))
  = Some ["1" ++ newline; "0:00:00,200 --> 0:00:00,300" ++ newline;
          "B" ++ newline ++ newline;
          "2" ++ newline; "0:00:00,400 --> 0:00:01,000" ++ newline;
          "C" ++ newline ++ newline]%string.
Proof.
  destruct (serialization_blocks (mk_env None 10 [] None None None)
              [mk_sub "A" 0 99; mk_sub "B" 200 300; mk_sub "C" 400 1000] world_init)
    as [Hfile _].
  - split; reflexivity.
  - repeat constructor.
  - exact Hfile.
Defined.

(** ** The text of a sample *)

Lemma line_score_numeric (line : detection) :
  line_score line = match numeric_score line with Some x => x | None => Fin 0 end.
Proof.
  unfold line_score, numeric_score.
  destruct (nth_error line 2) as [o|]; [|reflexivity].
  destruct (py_float o); reflexivity.
Qed.

Lemma zero_not_above (th : Q) : (0 <= th)%Q -> float_gt (Fin 0) th = false.
Proof.
  intros H. simpl. now rewrite (proj2 (Qle_bool_iff 0 th) H).
Qed.

Lemma threshold_not_above (q th : Q) : (q == th)%Q -> float_gt (Fin q) th = false.
Proof.
  intros H. simpl. rewrite (proj2 (Qle_bool_iff q th)); [reflexivity|].
  rewrite H. apply Qle_refl.
Qed.

Lemma float_gt_line_score (th : Q) (line : detection) :
  (0 <= th)%Q -> float_gt (line_score line) th = accepted th line.
Proof.
  intros H. rewrite line_score_numeric. unfold accepted.
  destruct (numeric_score line); [reflexivity | now apply zero_not_above].
Qed.

Lemma accepted_long (th : Q) (line : detection) :
  accepted th line = true -> nth_error line 1 <> None.
Proof.
  unfold accepted, numeric_score.
  destruct line as [|a [|b [|c l]]]; simpl; discriminate.
Qed.

Lemma py_join_from_strs (objs : list pyobj) (i : Z) :
  Forall is_str objs -> py_join_from i objs = Ok (map str_of objs).
Proof.
  intros H. revert i. induction H as [|o objs Ho _ IH]; intros i; [reflexivity|].
  destruct o; try contradiction. simpl. now rewrite IH.
Qed.

Lemma collect_texts_kept (th : Q) (lines : list detection) (texts : list pyobj) :
  (0 <= th)%Q -> Forall has_text lines -> Forall is_str texts ->
  exists objs,
    collect_texts th lines texts = Ok objs
    /\ Forall is_str objs
    /\ map str_of objs = map str_of texts ++ kept_texts th lines.
Proof.
  intros Hth Hl. revert texts. induction Hl as [|line lines Hline _ IH]; intros texts Ht.
  - exists texts. simpl. unfold kept_texts. simpl. now rewrite app_nil_r.
  - cbn [collect_texts]. rewrite float_gt_line_score by assumption.
    unfold kept_texts. cbn [filter].
    destruct (accepted th line) eqn:Ha; [|now apply IH].
    pose proof (accepted_long th line Ha) as Hlen.
    unfold has_text in Hline. cbn [map]. unfold text_of at 1.
    destruct (nth_error line 1) as [[x|s r| |pts]|]; try contradiction; try congruence.
    destruct (IH (texts ++ [PyStr s r])) as (objs & Ho & Hs & Hm).
    { apply Forall_app. split; [assumption | repeat constructor]. }
    exists objs. repeat split; try assumption.
    rewrite Hm, map_app. simpl. now rewrite <- app_assoc.
Qed.

Lemma extract_text_kept (th : Q) (lines : list detection) :
  (0 <= th)%Q -> Forall has_text lines ->
  extract_text th (Some lines) = Ok (Py.strip (Py.join " " (kept_texts th lines))).
Proof.
  intros Hth Hl. destruct lines as [|line lines]; [reflexivity|].
  unfold extract_text.
  destruct (collect_texts_kept th (line :: lines) [] Hth Hl (Forall_nil _))
    as (objs & Ho & Hs & Hm).
  rewrite Ho. simpl rbind. unfold py_join.
  rewrite (py_join_from_strs objs 0 Hs). simpl rbind. simpl in Hm. now rewrite Hm.
Qed.

(** C6. Under a threshold that is not negative, and with texts that are
    strings: a line whose score equals the threshold is excluded, a line
    whose score is missing or not a number counts as score 0 and is excluded,
    neither aborts the sample, and the text of the sample is the texts of
    the lines above the threshold, in order, joined by single spaces and
    stripped. *)
Theorem extract_text_threshold (th : Q) (lines : list detection) :
  (0 <= th)%Q -> Forall has_text lines ->
  extract_text th (Some lines) = Ok (Py.strip (Py.join " " (kept_texts th lines)))
  /\ (forall line q, numeric_score line = Some (Fin q) -> (q == th)%Q ->
        float_gt (line_score line) th = false /\ accepted th line = false)
  /\ (forall line, numeric_score line = None ->
        line_score line = Fin 0
        /\ float_gt (line_score line) th = false /\ accepted th line = false)
  /\ (forall pre line post,
        lines = pre ++ line :: post -> accepted th line = false ->
        extract_text th (Some lines) = extract_text th (Some (pre ++ post))).
Proof.
  intros Hth Hl. split; [now apply extract_text_kept|]. split; [|split].
  - intros line q Hn Hq. rewrite float_gt_line_score by assumption.
    unfold accepted. rewrite Hn. split; now apply threshold_not_above.
  - intros line Hn. rewrite float_gt_line_score by assumption.
    rewrite line_score_numeric. unfold accepted. rewrite Hn. now repeat split.
  - intros pre line post -> Ha.
    assert (Hl' : Forall has_text (pre ++ post)).
    { apply Forall_app in Hl as [Hp Hq]. apply Forall_app. split; [assumption|].
      now inversion Hq. }
    rewrite !extract_text_kept by assumption.
    unfold kept_texts. rewrite !filter_app. simpl. now rewrite Ha.
Qed.

Lemma extract_text_threshold_witness :
  extract_text default_threshold
    (Some [[PyBox []; PyStr " top" None; PyFloat (Fin (9 # 10))];
           [PyBox []; PyStr "edge" None; PyFloat (Fin (6 # 10))];
           [PyBox []; PyStr "word" None; PyStr "n/a" None];
           [PyBox []; PyStr "short" None];
           [PyBox []; PyStr "line " None; PyStr "0.75" (Some (Fin (75 # 100)))]])
  = Ok "top line"%string.
Proof.
  apply (extract_text_threshold default_threshold
           [[PyBox []; PyStr " top" None; PyFloat (Fin (9 # 10))];
            [PyBox []; PyStr "edge" None; PyFloat (Fin (6 # 10))];
            [PyBox []; PyStr "word" None; PyStr "n/a" None];
            [PyBox []; PyStr "short" None];
            [PyBox []; PyStr "line " None; PyStr "0.75" (Some (Fin (75 # 100)))]]).
  - unfold default_threshold, Qle. simpl. lia.
  - repeat constructor.
Defined.

(** ** The loop of [run] and the world *)

Lemma flag_stays_off (e : env) (p : nat) : flag e p = false -> flag e (S p) = false.
Proof.
  unfold flag. destruct (cancel_at e) as [k|]; [|discriminate].
  rewrite !Nat.ltb_ge. lia.
Qed.

Lemma consistent_same (e : env) (w w' : world) :
  running w' = running w -> polls w' = polls w -> consistent e w -> consistent e w'.
Proof. unfold consistent. now intros -> ->. Qed.

Lemma is_running_flag (e : env) (w : world) :
  consistent e w ->
  is_running e w = (flag e (polls w), polled e w) /\ consistent e (polled e w).
Proof.
  intros Hc. split.
  - unfold consistent, flag in Hc.
    unfold is_running, ui_thread, polled, flag, count_poll, stop.
    destruct (cancel_at e) as [k|].
    + destruct (Nat.leb_spec k (polls w)) as [Hk|Hk].
      * rewrite (proj2 (Nat.ltb_ge (polls w) k) Hk). reflexivity.
      * rewrite (proj2 (Nat.ltb_lt (polls w) k) Hk) in *.
        destruct Hc as [Hr|Hf]; [|discriminate]. now rewrite Hr.
    + destruct Hc as [Hr|Hf]; [|discriminate]. now rewrite Hr.
  - unfold consistent, polled. simpl.
    destruct (flag e (polls w)) eqn:Hf; [now left|right].
    now apply flag_stays_off.
Qed.

Lemma consistent_init (e : env) : consistent e (set_cap Opened world_init).
Proof. now left. Qed.

Lemma loop_effect_exit (e : env) (n : nat) (w : world) (ls : loop_state) :
  consistent e w ->
  flag e (polls w) = false \/ (n = 0%nat /\ flag e (polls w) = true) ->
  loop_effect e n w (polled e w) (Ok ls).
Proof.
  intros Hc Hf. split; [now apply is_running_flag|]. simpl.
  split; [reflexivity|]. split; [reflexivity|]. split.
  { exists 0%nat. now rewrite app_nil_r. }
  exists 0%nat. rewrite !Nat.add_0_r. split; [reflexivity|]. split; [lia|].
  split; [intros i Hi; lia|]. split; [reflexivity|].
  destruct Hf as [Hf|[-> Hf]]; [now left | now right].
Qed.

Lemma loop_effect_raise (e : env) (n : nat) (w w0 : world) (msg : string) :
  flag e (polls w) = true -> consistent e w0 -> advanced w w0 0 ->
  loop_effect e (S n) w w0 (Raise msg).
Proof.
  intros Hf Hc (Hfile & Hcap & Hsig & Hfr & Hp).
  split; [assumption|]. split; [assumption|]. split; [assumption|]. split.
  { now exists 0%nat. }
  exists 1%nat. split; [lia|]. split; [lia|]. split; [|lia].
  intros i Hi. replace i with 0%nat by lia. now rewrite Nat.add_0_r.
Qed.

Lemma loop_effect_step (e : env) (n m : nat) (w w0 w' : world) (r : result loop_state) :
  flag e (polls w) = true -> advanced w w0 m ->
  loop_effect e n w0 w' r -> loop_effect e (S n) w w' r.
Proof.
  intros Hf (Hfile & Hcap & Hsig & Hfr & Hp)
         (Hc & F & C & [k S'] & c & Hc' & Hlen & Hflags & Hr).
  split; [assumption|]. split; [congruence|]. split; [congruence|]. split.
  { exists (m + k)%nat. rewrite S', Hsig, <- app_assoc. now rewrite repeat_app. }
  exists (S c). split; [lia|]. split; [lia|]. split.
  { intros [|i] Hi; [now rewrite Nat.add_0_r|].
    replace (polls w + S i)%nat with (polls w0 + i)%nat by lia.
    apply Hflags. lia. }
  replace (polls w + S c)%nat with (polls w0 + c)%nat by lia.
  destruct r; [|lia].
  destruct Hr as [Hp' Hor]. split; [lia|].
  destruct Hor as [Hor|[Hor1 Hor2]]; [now left | right; split; [lia|assumption]].
Qed.

(** The loop touches neither the file nor the capture, emits progress
    signals only, reads a frame after each read of the flag that saw [True],
    and ends on a read of the flag that saw [False] or on the end of the
    video. *)
Lemma run_loop_world (cfg : config) (e : env) (fs : list frame) :
  forall ls w w' r,
    consistent e w ->
    run_loop cfg e fs ls w = (w', r) ->
    loop_effect e (List.length fs) w w' r.
Proof.
  induction fs as [|fr rest IH]; intros ls w w' r Hc H;
    cbn [run_loop] in H; destruct (is_running_flag e w Hc) as [E Hc1];
    rewrite E in H; clear E;
    destruct (flag e (polls w)) eqn:Hf; cbn [negb] in H;
    try (inversion H; subst; clear H; apply loop_effect_exit; auto; fail).
  assert (Hc2 : consistent e (count_read (polled e w))).
  { now apply (consistent_same e (polled e w)). }
  assert (Hadv : advanced w (count_read (polled e w)) 0).
  { repeat split. simpl. now rewrite app_nil_r. }
  assert (Hraise : forall msg,
             (count_read (polled e w), @Raise loop_state msg) = (w', r) ->
             loop_effect e (List.length (fr :: rest)) w w' r).
  { intros msg Heq. inversion Heq; subst. now apply loop_effect_raise. }
  destruct (frame_idx ls mod skip_frames =? 0).
  - destruct (process_sample cfg fr (bld ls)) as [b|msg]; [|now apply (Hraise msg)].
    destruct (0 <? processed_count ls + 1).
    + destruct (total_frames e =? 0); [now apply (Hraise "division by zero"%string)|].
      apply IH in H.
      * apply (loop_effect_step e _ 1 w (emit SigProgress (count_read (polled e w))));
          [assumption| |exact H].
        repeat split.
      * now apply (consistent_same e (polled e w)).
    + apply IH in H; [|assumption].
      now apply (loop_effect_step e _ 0 w (count_read (polled e w))).
  - apply IH in H; [|assumption].
    now apply (loop_effect_step e _ 0 w (count_read (polled e w))).
Qed.

Lemma flags_bound (e : env) (k c p : nat) :
  cancel_at e = Some k ->
  (forall i, (i < c)%nat -> flag e (p + i) = true) -> (c = 0 \/ p + c <= k)%nat.
Proof.
  intros Hk H. destruct c as [|c]; [now left|right].
  specialize (H c (Nat.lt_succ_diag_r c)). unfold flag in H. rewrite Hk in H.
  apply Nat.ltb_lt in H. lia.
Qed.

(** C7 (as amended). When [stop()] is called while the worker still polls
    the flag (before its last read, the one after the loop, at the latest),
    the run reads no frame after the read that sees the request, emits no
    completion signal and writes no file: the subtitles built so far are
    dropped. Unless an exception has ended the run before that read, the
    flag is down at the end, the capture is released, exactly the frames
    before the request have been read, and progress signals are all that
    was emitted. *)
Theorem cancellation_discards (cfg : config) (e : env) (k : nat) :
  cancel_at e = Some k -> (k <= S (List.length (frames e)))%nat ->
  file (run cfg e) = None
  /\ (forall p, ~ In (SigFinished p) (signals (run cfg e)))
  /\ (frames_read (run cfg e) <= k)%nat
  /\ ((forall m, ~ In (SigError m) (signals (run cfg e))) ->
      running (run cfg e) = false
      /\ cap (run cfg e) = Released
      /\ frames_read (run cfg e) = Nat.min k (List.length (frames e))
      /\ only_progress (signals (run cfg e))).
Proof.
  intros Hk Hlate. unfold run, run_body.
  destruct (engine_init e) as [msg|].
  { simpl. repeat split; try lia.
    - intros p [H|[]]. discriminate.
    - exfalso. apply (H msg). now left.
    - exfalso. apply (H msg). now left.
    - exfalso. apply (H msg). now left.
    - exfalso. apply (H msg). now left. }
  destruct (run_loop cfg e (frames e) loop_init (set_cap Opened world_init))
    as [w' r] eqn:Hloop.
  apply (run_loop_world _ _ _ _ _ _ _ (consistent_init e)) in Hloop.
  destruct Hloop as (Hcons & Hfile & Hcap & [n Hsig] & c & Hc & Hlen & Hflags & Hr).
  simpl in Hfile, Hcap, Hsig, Hc, Hflags.
  pose proof (flags_bound e k c 0 Hk Hflags) as Hbound.
  destruct r as [ls|msg].
  - destruct Hr as [Hp Hend]. simpl in Hp, Hend.
    destruct (is_running_flag e (set_cap Released w')) as [E _];
      [now apply (consistent_same e w')|].
    rewrite E. clear E. simpl polls. rewrite Hp.
    assert (Hoff : flag e (S c) = false).
    { unfold flag in *. rewrite Hk in *. apply Nat.ltb_ge.
      destruct Hend as [Hend|[Hall Hend]].
      - apply Nat.ltb_ge in Hend. lia.
      - apply Nat.ltb_lt in Hend. lia. }
    rewrite Hoff. simpl.
    split; [assumption|]. split.
    { intros p. rewrite Hsig. intros Hin. apply repeat_spec in Hin. discriminate. }
    split; [lia|]. intros _. split; [now rewrite Hp|].
    split; [reflexivity|]. split; [|now exists n].
    unfold flag in Hend. rewrite Hk in Hend.
    destruct Hend as [Hend|[Hall Hend]].
    + apply Nat.ltb_ge in Hend. lia.
    + apply Nat.ltb_lt in Hend. lia.
  - simpl. split; [assumption|]. split.
    { intros p. rewrite Hsig. simpl. rewrite in_app_iff. intros [Hin|[Hin|[]]].
      - apply repeat_spec in Hin. discriminate.
      - discriminate. }
    split; [lia|]. intros Hno. exfalso. apply (Hno msg).
    rewrite in_app_iff. right. now left.
Qed.

Lemma cancellation_discards_witness :
  file (run demo_cfg (mk_env None 3 [text_frame "A" 0; text_frame "A" 40; text_frame "A" 80]
                             (Some 2%nat) None None)) = None
  /\ frames_read (run demo_cfg (mk_env None 3 [text_frame "A" 0; text_frame "A" 40; text_frame "A" 80]
                                   (Some 2%nat) None None)) = 2%nat
  /\ cap (run demo_cfg (mk_env None 3 [text_frame "A" 0; text_frame "A" 40; text_frame "A" 80]
                           (Some 2%nat) None None)) = Released.
Proof.
  destruct (cancellation_discards demo_cfg
              (mk_env None 3 [text_frame "A" 0; text_frame "A" 40; text_frame "A" 80]
                      (Some 2%nat) None None) 2 eq_refl)
    as (Hfile & _ & _ & H).
  - simpl. lia.
  - split; [exact Hfile|]. split; [reflexivity|reflexivity].
Defined.

(** C7 as stated fails. A [stop()] that comes after the last read of the
    flag, while [write_srt] runs, changes nothing: the file is written and
    the completion signal emitted. And a [stop()] that comes while a sample
    is processed that raises finds no read of the flag any more: the run
    ends with the failure signal and the capture is not released. *)
Lemma late_stop_changes_nothing :
  (cancel_at (mk_env None 16 demo_video (Some 18%nat) None None) = Some 18%nat
   /\ signals (run demo_cfg (mk_env None 16 demo_video (Some 18%nat) None None))
      = [SigProgress; SigProgress; SigProgress; SigProgress; SigFinished "out.srt"]
   /\ file (run demo_cfg (mk_env None 16 demo_video (Some 18%nat) None None))
      = Some [("1" ++ newline)%string;
              ("0:00:00,000 --> 0:00:00,200" ++ newline)%string;
              ("A" ++ newline ++ newline)%string;
              ("2" ++ newline)%string;
              ("0:00:00,400 --> 0:00:00,600" ++ newline)%string;
              ("B" ++ newline ++ newline)%string])
  /\ (signals (run demo_cfg (mk_env None 6 (frames engine_fault_env) (Some 6%nat) None None))
      = [SigProgress; SigError "onnxruntime: inference failed"]
      /\ cap (run demo_cfg (mk_env None 6 (frames engine_fault_env) (Some 6%nat) None None))
         = Opened).
Proof.
  repeat split; vm_compute; reflexivity.
Qed.

(** ** Exceptions in a run *)

(** C8 (as amended). When the body of [run] raises, the run ends there:
    exactly one failure signal is emitted, the last signal, with the
    description of that exception, after progress signals only, and no
    completion signal. No output file is written when the exception comes
    before [write_srt] has opened the file (the engine, the loop, [open]
    itself); an exception raised while the blocks are written leaves the
    file with the chunks written until then. *)
Theorem exception_aborts_run (cfg : config) (e : env) (w : world) (msg : string) :
  run_body cfg e world_init = (w, Raise msg) ->
  (exists n, signals (run cfg e) = repeat SigProgress n ++ [SigError msg])
  /\ (forall p, ~ In (SigFinished p) (signals (run cfg e)))
  /\ (file (run cfg e) = None
      \/ exists subs f,
          candidates cfg e = Ok subs
          /\ open_error e = None
          /\ write_srt_loop e 1 subs [] = (f, Raise msg)
          /\ file (run cfg e) = Some f)
  /\ (engine_init e <> None \/ open_error e <> None
      \/ (exists w1 m, run_loop cfg e (frames e) loop_init (set_cap Opened world_init)
                       = (w1, Raise m)) ->
      file (run cfg e) = None).
Proof.
  intros H. unfold run. rewrite H. unfold run_body in H.
  assert (Hfin : forall n p, ~ In (SigFinished p) (repeat SigProgress n ++ [SigError msg])).
  { intros n p Hin. apply in_app_iff in Hin as [Hin|[Hin|[]]].
    - apply repeat_spec in Hin. discriminate.
    - discriminate. }
  destruct (engine_init e) as [m|] eqn:Hinit.
  { inversion H; subst; clear H. simpl.
    split; [now exists 0%nat|]. split; [apply (Hfin 0%nat)|]. split; [now left|reflexivity]. }
  destruct (run_loop cfg e (frames e) loop_init (set_cap Opened world_init))
    as [w' r] eqn:Hloop.
  pose proof (run_loop_world _ _ _ _ _ _ _ (consistent_init e) Hloop)
    as (Hcons & Hfile & Hcap & [n Hsig] & _).
  simpl in Hfile, Hsig.
  destruct r as [ls|m].
  - destruct (is_running_flag e (set_cap Released w')) as [E _];
      [now apply (consistent_same e w')|].
    rewrite E in H. clear E.
    destruct (flag e (polls (set_cap Released w'))); cbn [negb] in H; [|discriminate].
    unfold write_srt in H.
    destruct (open_error e) as [m|] eqn:Hopen.
    + inversion H; subst; clear H. simpl. rewrite Hsig.
      split; [now exists n|]. split; [apply Hfin|]. split; [now left|].
      intros _. assumption.
    + destruct (write_srt_loop e 1 (flush (bld ls)) []) as [f [[]|m]] eqn:Hwrite;
        [discriminate|].
      inversion H; subst; clear H. simpl. rewrite Hsig.
      split; [now exists n|]. split; [apply Hfin|]. split.
      * right. exists (flush (bld ls)), f. unfold candidates. rewrite Hloop.
        now repeat split.
      * intros [Hc|[Hc|(w1 & m & Hc)]]; congruence.
  - inversion H; subst; clear H. simpl. rewrite Hsig.
    split; [now exists n|]. split; [apply Hfin|]. split; [now left|].
    intros _. assumption.
Qed.

Lemma exception_aborts_run_witness :
  signals (run demo_cfg engine_fault_env)
  = [SigProgress; SigError "onnxruntime: inference failed"]
  /\ file (run demo_cfg engine_fault_env) = None.
Proof.
  destruct (exception_aborts_run demo_cfg engine_fault_env
              (mk_world [SigProgress] Opened None 6 6 true)
              "onnxruntime: inference failed" eq_refl)
    as (_ & _ & _ & Hfile).
  split; [reflexivity|]. apply Hfile. right. right.
  exists (mk_world [SigProgress] Opened None 6 6 true), "onnxruntime: inference failed"%string.
  reflexivity.
Defined.

(** C8 as stated fails: an exception raised while [write_srt] writes (the
    disk is full; or a timestamp [timedelta] refuses) is reported by the
    failure signal, and the first blocks are in the file. *)
Lemma exception_leaves_partial_file :
  (snd (run_body demo_cfg full_disk_env world_init)
   = Raise "[Errno 28] No space left on device"
   /\ signals (run demo_cfg full_disk_env)
      = [SigProgress; SigProgress; SigProgress; SigProgress;
         SigError "[Errno 28] No space left on device"]
   /\ file (run demo_cfg full_disk_env)
      = Some [("1" ++ newline)%string;
              ("0:00:00,000 --> 0:00:00,200" ++ newline)%string;
              ("A" ++ newline ++ newline)%string;
              ("2" ++ newline)%string])
  /\ (snd (run_body demo_cfg (mk_env None 16 far_video None None None) world_init)
      = Raise "days=1000000000; must have magnitude <= 999999999"
      /\ file (run demo_cfg (mk_env None 16 far_video None None None))
         = Some [("1" ++ newline)%string;
                 ("0:00:00,000 --> 0:00:00,200" ++ newline)%string;
                 ("A" ++ newline ++ newline)%string]).
Proof.
  repeat split; vm_compute; reflexivity.
Qed.

(** ** Samples whose region is empty *)

Lemma roi_visible_shape (cfg : config) (f g : frame) :
  frame_h f = frame_h g -> frame_w f = frame_w g ->
  roi_visible cfg f = roi_visible cfg g.
Proof.
  intros Hh Hw. unfold roi_visible, clamp_roi. now rewrite Hh, Hw.
Qed.

Lemma process_sample_hidden (cfg : config) (fr : frame) (st : builder) :
  roi_visible cfg fr = false -> process_sample cfg fr st = Ok st.
Proof. unfold process_sample. now intros ->. Qed.

(** While the region is empty in every frame, the loop leaves the builder
    alone, and nothing but the progress computation can raise. *)
Lemma run_loop_hidden (cfg : config) (e : env) (fs : list frame) :
  Forall (fun f => roi_visible cfg f = false) fs ->
  forall ls w w' r,
    run_loop cfg e fs ls w = (w', r) ->
    match r with
    | Ok ls' => bld ls' = bld ls
    | Raise msg => msg = "division by zero"%string /\ total_frames e = 0
    end.
Proof.
  induction 1 as [|fr rest Hfr _ IH]; intros ls w w' r Hrun.
  - cbn [run_loop] in Hrun.
    destruct (is_running e w) as [[|] w1]; cbn [negb] in Hrun; inversion Hrun; reflexivity.
  - cbn [run_loop] in Hrun.
    destruct (is_running e w) as [[|] w1]; cbn [negb] in Hrun; [|inversion Hrun; reflexivity].
    rewrite (process_sample_hidden cfg fr _ Hfr) in Hrun.
    destruct (frame_idx ls mod skip_frames =? 0).
    + destruct (0 <? processed_count ls + 1).
      * destruct (Z.eqb_spec (total_frames e) 0).
        -- inversion Hrun. now split.
        -- apply IH in Hrun. destruct r; assumption.
      * apply IH in Hrun. destruct r; assumption.
    + apply IH in Hrun. destruct r; assumption.
Qed.

(** C2 (as amended). A sampled frame whose region clamps to zero or
    negative area is skipped, without a call of the engine and without an
    exception: the builder is left as it is. That is what an empty-text
    observation does exactly when no segment is open; an open segment is
    not closed at that sample, and a later sample with its text extends
    it. In a video whose frames all have the size of that frame no segment
    is ever open, and only the progress computation can raise (when the
    frame count is zero). *)
Theorem degenerate_roi_skips_sample (cfg : config) (fr : frame) (st : builder) :
  roi_visible cfg fr = false ->
  process_sample cfg fr st = Ok st
  /\ (sub_text (current_sub st) = ""%string ->
      process_sample cfg fr st = Ok (builder_step st (pos_msec fr) ""))
  /\ (sub_text (current_sub st) <> ""%string ->
      process_sample cfg fr st <> Ok (builder_step st (pos_msec fr) "")
      /\ forall t,
          builder_step st t (sub_text (current_sub st))
          = mk_builder (subtitles st)
              (mk_sub (sub_text (current_sub st)) (sub_start (current_sub st)) t))
  /\ (forall e ls w w' r,
        Forall (fun f => frame_h f = frame_h fr /\ frame_w f = frame_w fr) (frames e) ->
        run_loop cfg e (frames e) ls w = (w', r) ->
        match r with
        | Ok ls' => bld ls' = bld ls
        | Raise msg => msg = "division by zero"%string /\ total_frames e = 0
        end).
Proof.
  intros Hroi. rewrite (process_sample_hidden cfg fr st Hroi).
  destruct st as [L cur]. simpl.
  split; [reflexivity|]. split; [|split].
  - intros Hc. now rewrite step_stay_idle.
  - intros Hc. split.
    + rewrite step_disappear by assumption. intros E. inversion E as [[EL Ec]].
      apply (f_equal (@List.length sub)) in EL. rewrite length_app in EL. simpl in EL. lia.
    + intros t. now apply step_extend.
  - intros e ls w w' r Hall. apply run_loop_hidden.
    eapply Forall_impl; [|exact Hall]. intros f [Hh Hw].
    now rewrite (roi_visible_shape cfg f fr Hh Hw).
Qed.

Lemma degenerate_roi_skips_sample_witness :
  process_sample demo_cfg (small_frame 200) open_A = Ok open_A.
Proof.
  apply (degenerate_roi_skips_sample demo_cfg (small_frame 200) open_A).
  reflexivity.
Defined.

(** C2 as stated fails: with the segment "A" open, the sample whose region
    is empty does not close it as an empty-text observation would, and
    the same text two samples later extends it. In the run the segment
    reaches from 0 to 400 ms and is written; with an empty-text observation
    in the middle there are two segments of no duration and nothing is
    written. *)
Lemma degenerate_sample_keeps_segment_open :
  roi_visible demo_cfg (small_frame 200) = false
  /\ process_sample demo_cfg (text_frame "A" 0) builder_init = Ok open_A
  /\ process_sample demo_cfg (small_frame 200) open_A = Ok open_A
  /\ builder_step open_A 200 "" = mk_builder [mk_sub "A" 0 0] no_sub
  /\ process_sample demo_cfg (small_frame 200) open_A <> Ok (builder_step open_A 200 "")
  /\ candidates demo_cfg (mk_env None 11 (gap_video (small_frame 200)) None None None)
     = Ok [mk_sub "A" 0 400]
  /\ candidates demo_cfg (mk_env None 11 (gap_video (blank_frame 200)) None None None)
     = Ok [mk_sub "A" 0 0; mk_sub "A" 400 400]
  /\ file (run demo_cfg (mk_env None 11 (gap_video (small_frame 200)) None None None))
     = Some [("1" ++ newline)%string;
             ("0:00:00,000 --> 0:00:00,400" ++ newline)%string;
             ("A" ++ newline ++ newline)%string]
  /\ file (run demo_cfg (mk_env None 11 (gap_video (blank_frame 200)) None None None))
     = Some [].
Proof.
  repeat split; try (vm_compute; reflexivity).
  vm_compute. discriminate.
Qed.

(** ** The run as a whole *)

Lemma flag_never (e : env) (p : nat) : cancel_at e = None -> flag e p = true.
Proof. unfold flag. now intros ->. Qed.

Lemma process_sample_visible (cfg : config) (fr : frame) (st : builder) :
  roi_visible cfg fr = true ->
  process_sample cfg fr st
  = (try! text <- (try! ocr_result <- ocr_reply fr; extract_text (threshold cfg) ocr_result);
     Ok (builder_step st (pos_msec fr) text)).
Proof.
  unfold process_sample. intros ->.
  destruct (ocr_reply fr) as [r|]; [|reflexivity]. simpl.
  destruct (extract_text (threshold cfg) r); reflexivity.
Qed.

(** Without a cancellation, the builder at the end of the loop is the
    state machine run over the observations. *)
Lemma run_loop_observes (cfg : config) (e : env) (fs : list frame) :
  cancel_at e = None ->
  forall ls w w' ls',
    running w = true ->
    run_loop cfg e fs ls w = (w', Ok ls') ->
    bld ls' = observe_from (bld ls) (observations cfg fs (frame_idx ls)).
Proof.
  intros Hc. induction fs as [|fr rest IH]; intros ls w w' ls' Hw Hrun;
    cbn [run_loop] in Hrun;
    destruct (is_running_flag e w (or_introl Hw)) as [E _];
    rewrite E, (flag_never e _ Hc) in Hrun; clear E; cbn [negb] in Hrun.
  - now inversion Hrun.
  - assert (Hw' : forall w0, running w0 = running (polled e w) -> running w0 = true).
    { intros w0 ->. simpl. now apply flag_never. }
    cbn [observations].
    destruct (frame_idx ls mod skip_frames =? 0); cbn [andb].
    2:{ apply IH in Hrun; [exact Hrun | now apply Hw']. }
    destruct (roi_visible cfg fr) eqn:Hroi.
    + rewrite (process_sample_visible cfg fr _ Hroi) in Hrun.
      destruct (try! ocr_result <- ocr_reply fr; extract_text (threshold cfg) ocr_result)
        as [text|msg]; simpl rbind in Hrun; [|discriminate].
      destruct (0 <? processed_count ls + 1).
      * destruct (total_frames e =? 0); [discriminate|].
        apply IH in Hrun; [exact Hrun | now apply Hw'].
      * apply IH in Hrun; [exact Hrun | now apply Hw'].
    + rewrite (process_sample_hidden cfg fr _ Hroi) in Hrun.
      destruct (0 <? processed_count ls + 1).
      * destruct (total_frames e =? 0); [discriminate|].
        apply IH in Hrun; [exact Hrun | now apply Hw'].
      * apply IH in Hrun; [exact Hrun | now apply Hw'].
Qed.

(** X19. A run that is not cancelled and whose loop raises nothing hands
    [build] of its observations to [write_srt]; on a sound disk, and when
    [ms_to_srt_time] has a text for the times of the segments the filter
    keeps, the file holds the blocks of these segments, the capture is
    released and the completion signal carries the output path. *)
Theorem run_writes_built_track (cfg : config) (e : env) (subs : list sub) :
  cancel_at e = None -> engine_init e = None ->
  candidates cfg e = Ok subs ->
  subs = build (observations cfg (frames e) 0)
  /\ (disk_sound e -> Forall convertible_sub (duration_filter subs) ->
      file (run cfg e) = Some (blocks_from 1 (duration_filter subs))
      /\ cap (run cfg e) = Released
      /\ exists n, signals (run cfg e)
                   = repeat SigProgress n ++ [SigFinished (output_path cfg)]).
Proof.
  intros Hc Hinit Hcand. unfold candidates in Hcand. unfold run, run_body.
  rewrite Hinit.
  destruct (run_loop cfg e (frames e) loop_init (set_cap Opened world_init))
    as [w' [ls|msg]] eqn:Hloop; simpl in Hcand; [|discriminate].
  inversion Hcand; subst; clear Hcand.
  pose proof (run_loop_observes cfg e _ Hc loop_init (set_cap Opened world_init)
                _ _ eq_refl Hloop) as Hobs.
  split; [unfold build, observe; now rewrite Hobs|].
  intros [Ho Hw] Hr.
  pose proof (run_loop_world _ _ _ _ _ _ _ (consistent_init e) Hloop)
    as (Hcons & Hfile & Hcap & [n Hsig] & _).
  destruct (is_running_flag e (set_cap Released w')) as [E _];
    [now apply (consistent_same e w')|].
  rewrite E, (flag_never e _ Hc). clear E. cbn [negb].
  unfold write_srt. rewrite Ho.
  rewrite write_srt_loop_sound by assumption. simpl.
  split; [reflexivity|]. split; [reflexivity|].
  exists n. now rewrite Hsig.
Qed.

Lemma run_writes_built_track_witness :
  [mk_sub "HELLO" 2000 7800] = build (observations demo_cfg hello_video 0)
  /\ file (run demo_cfg (mk_env None 250 hello_video None None None))
     = Some (blocks_from 1 (duration_filter [mk_sub "HELLO" 2000 7800]))
  /\ cap (run demo_cfg (mk_env None 250 hello_video None None None)) = Released
  /\ exists n, signals (run demo_cfg (mk_env None 250 hello_video None None None))
               = repeat SigProgress n ++ [SigFinished (output_path demo_cfg)].
Proof.
  destruct (run_writes_built_track demo_cfg (mk_env None 250 hello_video None None None)
              [mk_sub "HELLO" 2000 7800] eq_refl eq_refl)
    as [Hbuild Hfile]; [vm_compute; reflexivity|].
  split; [exact Hbuild|]. apply Hfile.
  - split; reflexivity.
  - repeat constructor.
Defined.

Example hello_scenario :
  candidates demo_cfg (mk_env None 250 hello_video None None None)
  = Ok [mk_sub "HELLO" 2000 7800]
  /\ file (run demo_cfg (mk_env None 250 hello_video None None None))
     = Some [("1" ++ newline)%string;
             ("0:00:02,000 --> 0:00:07,800" ++ newline)%string;
             ("HELLO" ++ newline ++ newline)%string].
Proof. split; vm_compute; reflexivity. Qed.


(** * Further properties of the worker *)

(** ** What the segments are made of *)

Lemma flush_subtitles (st : builder) (P : sub -> Prop) :
  Forall P (flush st) -> Forall P (subtitles st).
Proof.
  unfold flush. destruct (Py.truthy (sub_text (current_sub st))); [|trivial].
  intros H. now apply Forall_app in H.
Qed.

Lemma flush_current (st : builder) (P : sub -> Prop) :
  sub_text (current_sub st) <> ""%string -> Forall P (flush st) -> P (current_sub st).
Proof.
  unfold flush. intros Hc. rewrite (proj2 (truthy_true _) Hc).
  intros H. apply Forall_app in H as [_ H]. now inversion H.
Qed.

Lemma made_of_more (obs more : list (float * string)) (s : sub) :
  made_of obs s -> made_of (obs ++ more) s.
Proof.
  intros (Ht & Hs & He). repeat split; [assumption| |]; apply in_or_app; now left.
Qed.

(** X1. Every segment handed to [write_srt] has a text that is not empty,
    and its start and its end are timestamps of observations that carry
    this very text. *)
Theorem segments_made_of_observations (obs : list (float * string)) :
  Forall (made_of obs) (build obs).
Proof.
  unfold build. induction obs as [|[t s] obs IH] using rev_ind; [constructor|].
  rewrite observe_snoc, flush_step.
  assert (IH' : Forall (made_of (obs ++ [(t, s)])) (flush (observe obs))).
  { eapply Forall_impl; [|exact IH]. intros a. apply made_of_more. }
  assert (Hnew : In (t, s) (obs ++ [(t, s)])) by (apply in_or_app; right; now left).
  destruct (Py.truthy s) eqn:Hs; [|assumption].
  apply truthy_true in Hs.
  destruct (String.eqb_spec (sub_text (current_sub (observe obs))) s) as [E|E].
  - apply Forall_app. split; [now apply flush_subtitles|].
    constructor; [|constructor].
    assert (Hcur : made_of (obs ++ [(t, s)]) (current_sub (observe obs))).
    { apply flush_current; [congruence | assumption]. }
    destruct Hcur as (_ & Hstart & _). rewrite E in Hstart.
    repeat split; assumption.
  - apply Forall_app. split; [assumption|].
    constructor; [|constructor]. repeat split; assumption.
Qed.

(** X2. A text that shows in one sample only (the samples around it carry
    other texts or none) never reaches the file: its segment starts and
    ends at that sample, whose timestamp is a finite number, and
    [write_srt] drops it. *)
Theorem lone_sample_never_written
    (e : env) (w : world) (pre post : list (float * string)) (t : float) (s : string) :
  s <> ""%string -> is_finite t = true -> last_text pre <> s -> first_text post <> s ->
  build (pre ++ (t, s) :: post) = build pre ++ mk_sub s t t :: build post
  /\ write_srt e (build (pre ++ (t, s) :: post)) w
     = write_srt e (build pre ++ build post) w.
Proof.
  intros Hs Hfin Hpre Hpost.
  pose proof (build_run pre post s t [] Hs Hpre Hpost) as Hb. simpl in Hb.
  split; [exact Hb|].
  unfold write_srt. destruct (open_error e); [reflexivity|].
  rewrite (write_srt_loop_filter e (build (pre ++ (t, s) :: post))).
  rewrite (write_srt_loop_filter e (build pre ++ build post)).
  rewrite Hb. unfold duration_filter. rewrite !filter_app. simpl.
  unfold long_enough at 2. simpl.
  now rewrite (sub_self_short t Hfin).
Qed.

Lemma lone_sample_never_written_witness :
  write_srt (mk_env None 10 [] None None None)
            (build ([(0, "A"); (200, "A")]%float ++ (400%float, "B") :: [(600, "A"); (800, "A")]%float))
            world_init
  = write_srt (mk_env None 10 [] None None None)
              (build [(0, "A"); (200, "A")]%float ++ build [(600, "A"); (800, "A")]%float)
              world_init.
Proof.
  apply (lone_sample_never_written (mk_env None 10 [] None None None) world_init
           [(0, "A"); (200, "A")]%float [(600, "A"); (800, "A")]%float 400%float "B");
    simpl; (reflexivity || discriminate).
Defined.

(** ** The text of a timestamp *)

Lemma microseconds_to_delta_fields (us : Z) (td : timedelta) :
  microseconds_to_delta us = Ok td ->
  Z.abs (td_days td) <= 999999999
  /\ 0 <= td_seconds td < 86400
  /\ 0 <= td_microseconds td < 1000000
  /\ us = (td_days td * 86400 + td_seconds td) * 1000000 + td_microseconds td.
Proof.
  unfold microseconds_to_delta. cbv zeta.
  destruct ((us / 1000000 / 86400 <? -2147483648) || (2147483647 <? us / 1000000 / 86400));
    [discriminate|].
  destruct (Z.ltb_spec 999999999 (Z.abs (us / 1000000 / 86400))) as [H|H]; [discriminate|].
  intros E. inversion E; subst; clear E. simpl.
  split; [assumption|].
  split; [apply Z.mod_pos_bound; lia|].
  split; [apply Z.mod_pos_bound; lia|].
  pose proof (Z.div_mod us 1000000 ltac:(lia)).
  pose proof (Z.div_mod (us / 1000000) 86400 ltac:(lia)). lia.
Qed.

Lemma timedelta_of_seconds_fields (seconds : float) (td : timedelta) :
  timedelta_of_seconds seconds = Ok td ->
  Z.abs (td_days td) <= 999999999
  /\ 0 <= td_seconds td < 86400
  /\ 0 <= td_microseconds td < 1000000.
Proof.
  unfold timedelta_of_seconds.
  destruct (modf seconds) as [[fracpart intpart]|]; [|discriminate]. simpl rbind.
  destruct (fracpart =? 0)%float.
  - intros H. apply microseconds_to_delta_fields in H. tauto.
  - destruct (modf (1000000 * fracpart)%float) as [[f2 i2]|]; [|discriminate].
    simpl rbind. intros H. apply microseconds_to_delta_fields in H. tauto.
Qed.

Lemma length_zeros (n : nat) : String.length (Py.zeros n) = n.
Proof. induction n; simpl; congruence. Qed.

Lemma length_app (a b : string) :
  String.length (a ++ b) = (String.length a + String.length b)%nat.
Proof. induction a; simpl; congruence. Qed.

Lemma length_format_0d (width : nat) (n : Z) :
  0 <= n -> (width <= String.length (Py.format_0d width n))%nat.
Proof.
  intros H. unfold Py.format_0d.
  destruct (Z.ltb_spec n 0); [lia|].
  rewrite length_app, length_zeros. lia.
Qed.

Lemma length_prefix (n : nat) (s : string) :
  (n <= String.length s)%nat -> String.length (Py.prefix n s) = n.
Proof.
  unfold Py.prefix. revert s. induction n as [|n IH]; intros s H.
  - now destruct s.
  - destruct s as [|c s]; simpl in *; [lia|]. rewrite IH; [reflexivity | lia].
Qed.

(** X3. [ms_to_srt_time] raises exactly what [timedelta] raises on
    [ms / 1000]; otherwise it returns the clock text of the [timedelta], a
    comma and three characters: the first three of the six digits of the
    microseconds (milliseconds cut off, not rounded), or 000. The
    [timedelta] is within 999999999 days, with seconds below 86400 and
    microseconds below 1000000. *)
Theorem ms_to_srt_time_format (ms : float) :
  match timedelta_of_seconds (ms / 1000)%float with
  | Raise msg => ms_to_srt_time ms = Raise msg
  | Ok td =>
      ms_to_srt_time ms = Ok (clock_text td ++ "," ++ millis_text td)%string
      /\ String.length (millis_text td) = 3%nat
      /\ dotless (clock_text td)
      /\ Z.abs (td_days td) <= 999999999
      /\ 0 <= td_seconds td < 86400
      /\ 0 <= td_microseconds td < 1000000
  end.
Proof.
  rewrite ms_to_srt_time_clock.
  destruct (timedelta_of_seconds (ms / 1000)%float) as [td|msg] eqn:E; [|reflexivity].
  destruct (timedelta_of_seconds_fields _ _ E) as (Hd & Hs & Hu).
  split; [reflexivity|]. split.
  - unfold millis_text. destruct (td_microseconds td =? 0); [reflexivity|].
    apply length_prefix.
    pose proof (length_format_0d 6 (td_microseconds td) (proj1 Hu)). lia.
  - split; [apply dotless_clock_text|]. now repeat split.
Qed.

(** ** The crop *)

(** X4. When a sample is processed, the crop lies inside the frame and is
    not empty: 0 <= x1 < x2 <= width and 0 <= y1 < y2 <= height, so the
    slice [frame[y1:y2, x1:x2]] never has a negative index; it is no larger
    than the region. A region with a corner that is not negative and a
    size that is positive is skipped exactly when this corner lies beyond
    the frame. *)
Theorem crop_inside_frame (cfg : config) (fr : frame) (rx ry rw rh : Z) :
  roi cfg = (rx, ry, rw, rh) ->
  (roi_visible cfg fr = true ->
   clamp_roi cfg fr
   = (Z.max 0 rx, Z.max 0 ry, Z.min (frame_w fr) (rx + rw), Z.min (frame_h fr) (ry + rh))
   /\ 0 <= Z.max 0 rx < Z.min (frame_w fr) (rx + rw)
   /\ Z.min (frame_w fr) (rx + rw) <= frame_w fr
   /\ 0 <= Z.max 0 ry < Z.min (frame_h fr) (ry + rh)
   /\ Z.min (frame_h fr) (ry + rh) <= frame_h fr
   /\ Z.min (frame_w fr) (rx + rw) - Z.max 0 rx <= rw
   /\ Z.min (frame_h fr) (ry + rh) - Z.max 0 ry <= rh)
  /\ (0 <= rx -> 0 <= ry -> 0 < rw -> 0 < rh ->
      roi_visible cfg fr = (rx <? frame_w fr) && (ry <? frame_h fr)).
Proof.
  intros Hroi. unfold roi_visible, clamp_roi. rewrite Hroi. split.
  - intros H. apply andb_true_iff in H as [Hx Hy].
    apply Z.ltb_lt in Hx, Hy. repeat split; lia.
  - intros Hx Hy Hw Hh.
    destruct (Z.ltb_spec rx (frame_w fr)), (Z.ltb_spec ry (frame_h fr));
      destruct (Z.ltb_spec (Z.max 0 rx) (Z.min (frame_w fr) (rx + rw)));
      destruct (Z.ltb_spec (Z.max 0 ry) (Z.min (frame_h fr) (ry + rh)));
      simpl; try reflexivity; lia.
Qed.

Lemma crop_inside_frame_witness :
  clamp_roi demo_cfg (mk_frame 60 80 (Ok None) 0) = (50, 50, 80, 60).
Proof.
  apply (crop_inside_frame demo_cfg (mk_frame 60 80 (Ok None) 0) 50 50 40 20 eq_refl).
  reflexivity.
Defined.

(** ** The text field of a detection *)

Lemma collect_texts_objs (th : Q) (lines : list detection) (texts : list pyobj) :
  (0 <= th)%Q ->
  collect_texts th lines texts
  = Ok (texts ++ map text_obj (filter (accepted th) lines)).
Proof.
  intros Hth. revert texts. induction lines as [|line lines IH]; intros texts.
  - simpl. now rewrite app_nil_r.
  - cbn [collect_texts filter]. rewrite float_gt_line_score by assumption.
    destruct (accepted th line) eqn:Ha; [|apply IH].
    pose proof (accepted_long th line Ha) as Hlen.
    cbn [map]. unfold text_obj at 1.
    destruct line as [|a [|b l]]; simpl in Hlen; try congruence.
    cbn [nth_error nth]. rewrite IH. now rewrite <- app_assoc.
Qed.

(** X5. With a threshold that is not negative, the access [line[1]] that
    no [except] guards never raises: a line gets there only with a score
    above the threshold, so with three items at least. The text of a
    sample is the join of what stands at index 1 of these lines, and the
    only exception a sample's detections can cause is the [TypeError] of
    [join] on a text that is no [str]. *)
Theorem extract_text_index_safe (th : Q) (lines : list detection) :
  (0 <= th)%Q ->
  extract_text th (Some lines)
  = (try! joined <- py_join " " (map text_obj (filter (accepted th) lines));
     Ok (Py.strip joined)).
Proof.
  intros Hth. destruct lines as [|line lines]; [reflexivity|].
  unfold extract_text. rewrite collect_texts_objs by assumption. reflexivity.
Qed.

Lemma extract_text_index_safe_witness :
  extract_text default_threshold
    (Some [[PyBox []; PyStr "one" None; PyFloat (Fin (9 # 10))];
           [PyBox []];
           [PyBox []; PyNone; PyFloat (Fin (8 # 10))]])
  = Raise "sequence item 1: expected str instance, NoneType found".
Proof.
  apply (extract_text_index_safe default_threshold
           [[PyBox []; PyStr "one" None; PyFloat (Fin (9 # 10))];
            [PyBox []];
            [PyBox []; PyNone; PyFloat (Fin (8 # 10))]]).
  unfold default_threshold, Qle. simpl. lia.
Defined.

(** ** Runs at the edges *)

Lemma is_running_world (e : env) (w : world) :
  signals (snd (is_running e w)) = signals w
  /\ cap (snd (is_running e w)) = cap w
  /\ file (snd (is_running e w)) = file w
  /\ frames_read (snd (is_running e w)) = frames_read w.
Proof.
  unfold is_running, ui_thread.
  destruct (cancel_at e) as [k|]; [destruct (k <=? polls w)%nat|]; now repeat split.
Qed.

Lemma is_running_never (e : env) (w : world) :
  cancel_at e = None -> is_running e w = (running w, count_poll w).
Proof. unfold is_running, ui_thread. now intros ->. Qed.

(** X6. A video that yields no frame at all (a file that [cv2] cannot open
    among them) is no error: unless cancelled, the run writes an empty
    file, releases the capture and emits the completion signal, the only
    signal. *)
Theorem empty_video_empty_file (cfg : config) (e : env) :
  engine_init e = None -> frames e = [] -> cancel_at e = None -> open_error e = None ->
  signals (run cfg e) = [SigFinished (output_path cfg)]
  /\ file (run cfg e) = Some []
  /\ cap (run cfg e) = Released
  /\ frames_read (run cfg e) = 0%nat.
Proof.
  intros Hinit Hframes Hc Ho. unfold run, run_body. rewrite Hinit, Hframes.
  cbn [run_loop]. rewrite (is_running_never e _ Hc). cbn [running set_cap world_init negb].
  rewrite (is_running_never e _ Hc). cbn [running set_cap count_poll negb].
  unfold write_srt. rewrite Ho. cbn [write_srt_loop]. now repeat split.
Qed.

Lemma empty_video_empty_file_witness :
  signals (run demo_cfg (mk_env None 0 [] None None None)) = [SigFinished "out.srt"]
  /\ file (run demo_cfg (mk_env None 0 [] None None None)) = Some [].
Proof.
  destruct (empty_video_empty_file demo_cfg (mk_env None 0 [] None None None)
              eq_refl eq_refl eq_refl eq_refl) as (Hs & Hf & _).
  split; [exact Hs | exact Hf].
Defined.

(** X7. When the container reports a frame count of zero and the video
    has frames nevertheless, the percentage divides by zero on the first
    sample: the run ends there with the failure signal, having read one
    frame, with no file and the capture left open. *)
Theorem zero_frame_count_aborts (cfg : config) (e : env) (fr : frame) (rest : list frame)
    (b : builder) :
  engine_init e = None -> total_frames e = 0 -> frames e = fr :: rest ->
  cancel_at e <> Some 0%nat ->
  process_sample cfg fr builder_init = Ok b ->
  signals (run cfg e) = [SigError "division by zero"]
  /\ file (run cfg e) = None
  /\ cap (run cfg e) = Opened
  /\ frames_read (run cfg e) = 1%nat.
Proof.
  intros Hinit Htotal Hframes Hc Hsample. unfold run, run_body.
  rewrite Hinit, Hframes. cbn [run_loop].
  destruct (is_running_flag e (set_cap Opened world_init) (consistent_init e)) as [E _].
  rewrite E. clear E.
  assert (Hf : flag e (polls (set_cap Opened world_init)) = true).
  { unfold flag. simpl. destruct (cancel_at e) as [[|k]|]; try reflexivity. congruence. }
  rewrite Hf. cbn [negb loop_init bld frame_idx processed_count].
  rewrite Hsample, Htotal. simpl. now repeat split.
Qed.

Lemma zero_frame_count_aborts_witness :
  signals (run demo_cfg (mk_env None 0 [blank_frame 0; blank_frame 40] None None None))
  = [SigError "division by zero"].
Proof.
  apply (zero_frame_count_aborts demo_cfg
           (mk_env None 0 [blank_frame 0; blank_frame 40] None None None)
           (blank_frame 0) [blank_frame 40] builder_init); try reflexivity.
  discriminate.
Defined.

(** X8. The capture is released exactly when the loop ends without an
    exception: an exception raised in the loop (by the engine, by [join],
    by the percentage) leaves it open, and when the engine cannot be
    built it was never opened. *)
Theorem capture_released_iff_loop_ends (cfg : config) (e : env) :
  cap (run cfg e)
  = match engine_init e with
    | Some _ => NotOpened
    | None =>
        match candidates cfg e with
        | Ok _ => Released
        | Raise _ => Opened
        end
    end.
Proof.
  unfold run, run_body, candidates.
  destruct (engine_init e); [reflexivity|].
  destruct (run_loop cfg e (frames e) loop_init (set_cap Opened world_init))
    as [w' [ls|msg]] eqn:Hloop; cbn [snd].
  - destruct (is_running e (set_cap Released w')) as [[|] w1] eqn:Hr; cbn [negb].
    + pose proof (is_running_world e (set_cap Released w')) as (_ & Hcap & _).
      rewrite Hr in Hcap. simpl in Hcap.
      unfold write_srt. destruct (open_error e); [exact Hcap|].
      destruct (write_srt_loop e 1 (flush (bld ls)) []) as [f [[]|m]]; exact Hcap.
    + pose proof (is_running_world e (set_cap Released w')) as (_ & Hcap & _).
      rewrite Hr in Hcap. exact Hcap.
  - pose proof (run_loop_world _ _ _ _ _ _ _ (consistent_init e) Hloop) as (_ & _ & Hcap & _).
    exact Hcap.
Qed.

(** ** The signals of a run *)

(** X9. The signals of a run are progress signals followed by one signal
    at most: the completion signal with the output path, after which the
    file exists and the capture is released, or the failure signal. A run
    ends without either only by the cancellation: the flag is down, there
    is no file, the capture is released. *)
Theorem run_signal_protocol (cfg : config) (e : env) :
  exists n tail,
    signals (run cfg e) = repeat SigProgress n ++ tail
    /\ terminal cfg tail
    /\ (tail = [] ->
        running (run cfg e) = false /\ file (run cfg e) = None
        /\ cap (run cfg e) = Released)
    /\ (tail = [SigFinished (output_path cfg)] ->
        file (run cfg e) <> None /\ cap (run cfg e) = Released).
Proof.
  unfold run, run_body, terminal.
  destruct (engine_init e) as [msg|].
  { exists 0%nat, [SigError msg]. simpl. split; [reflexivity|].
    split; [right; right; now exists msg|]. split; discriminate. }
  destruct (run_loop cfg e (frames e) loop_init (set_cap Opened world_init))
    as [w' [ls|msg]] eqn:Hloop;
    pose proof (run_loop_world _ _ _ _ _ _ _ (consistent_init e) Hloop)
      as (Hcons & Hfile & Hcap & [n Hsig] & _); simpl in Hfile, Hsig.
  - destruct (is_running_flag e (set_cap Released w')) as [E _];
      [now apply (consistent_same e w')|].
    rewrite E. clear E.
    destruct (flag e (polls (set_cap Released w'))) eqn:Hf; cbn [negb].
    + unfold write_srt. destruct (open_error e) as [msg|].
      * exists n, [SigError msg]. simpl. rewrite Hsig.
        split; [reflexivity|]. split; [right; right; now exists msg|]. split; discriminate.
      * destruct (write_srt_loop e 1 (flush (bld ls)) []) as [f [[]|msg]].
        -- exists n, [SigFinished (output_path cfg)]. simpl. rewrite Hsig.
           split; [reflexivity|]. split; [right; now left|]. split; [discriminate|].
           intros _. split; [discriminate | reflexivity].
        -- exists n, [SigError msg]. simpl. rewrite Hsig.
           split; [reflexivity|]. split; [right; right; now exists msg|]. split; discriminate.
    + exists n, []. simpl. rewrite Hsig, app_nil_r.
      split; [reflexivity|]. split; [now left|]. split; [|discriminate].
      intros _. now repeat split.
  - exists n, [SigError msg]. simpl. rewrite Hsig.
    split; [reflexivity|]. split; [right; right; now exists msg|]. split; discriminate.
Qed.

Lemma sampled_among_closed (c : nat) :
  forall i, 0 <= i ->
  Z.of_nat (sampled_among i c) = (i + Z.of_nat c + 4) / 5 - (i + 4) / 5.
Proof.
  induction c as [|c IH]; intros i Hi.
  - simpl. replace (i + 0 + 4) with (i + 4) by lia. lia.
  - cbn [sampled_among]. unfold skip_frames.
    replace (i + Z.of_nat (S c) + 4) with (i + 1 + Z.of_nat c + 4) by lia.
    destruct (Z.eqb_spec (i mod 5) 0) as [E|E].
    + rewrite Nat2Z.inj_succ, IH by lia.
      enough ((i + 1 + 4) / 5 = (i + 4) / 5 + 1) by lia.
      clear IH. Z.to_euclidean_division_equations. lia.
    + rewrite IH by lia.
      enough ((i + 1 + 4) / 5 = (i + 4) / 5) by lia.
      clear IH. Z.to_euclidean_division_equations. lia.
Qed.

Lemma sampled_among_samples (c : nat) : sampled_among 0 c = samples c.
Proof.
  apply Nat2Z.inj. rewrite sampled_among_closed by lia. unfold samples.
  rewrite Nat2Z.inj_div, Nat2Z.inj_add. simpl (Z.of_nat 4). simpl (Z.of_nat 5).
  replace ((0 + 4) / 5) with 0 by reflexivity.
  now rewrite Z.add_0_l, Z.sub_0_r.
Qed.

(** The loop emits one progress signal per sample that does not raise;
    only a sample can raise. *)
Lemma run_loop_progress (cfg : config) (e : env) (fs : list frame) :
  forall ls w w' r,
    0 <= processed_count ls ->
    run_loop cfg e fs ls w = (w', r) ->
    progress_effect (frame_idx ls) w w' r.
Proof.
  induction fs as [|fr rest IH]; intros ls w w' r Hpc H; cbn [run_loop] in H;
    pose proof (is_running_world e w) as (Hs & _ & _ & Hfr);
    destruct (is_running e w) as [[|] w1]; cbn [negb snd] in *;
    try (inversion H; subst; clear H; exists 0%nat; simpl;
         rewrite app_nil_r, Nat.add_0_r; now split).
  assert (Hraise : forall msg,
             (count_read w1, @Raise loop_state msg) = (w', r) ->
             frame_idx ls mod skip_frames = 0 ->
             progress_effect (frame_idx ls) w w' r).
  { intros msg Heq Hmod. inversion Heq; subst. exists 1%nat. simpl.
    split; [lia|]. exists 0%nat. simpl. rewrite Z.add_0_r, app_nil_r. now repeat split. }
  assert (Hstep : forall ls0 w0 m,
             frame_idx ls0 = frame_idx ls + 1 ->
             0 <= processed_count ls0 ->
             frames_read w0 = S (frames_read w) ->
             signals w0 = signals w ++ repeat SigProgress m ->
             sampled_among (frame_idx ls) 1 = m ->
             run_loop cfg e rest ls0 w0 = (w', r) ->
             progress_effect (frame_idx ls) w w' r).
  { intros ls0 w0 m Hi Hpc0 Hr0 Hs0 Hm Hrun.
    destruct (IH _ _ _ _ Hpc0 Hrun) as (c & Hc & Hr). exists (S c). split; [lia|].
    assert (Hsplit : forall k, sampled_among (frame_idx ls) (S k)
                               = (m + sampled_among (frame_idx ls0) k)%nat).
    { intros k. rewrite <- Hm, Hi. cbn [sampled_among].
      destruct (frame_idx ls mod skip_frames =? 0); reflexivity. }
    destruct r as [ls'|msg].
    - rewrite Hr, Hs0, <- app_assoc, <- repeat_app. now rewrite Hsplit.
    - destruct Hr as (c' & -> & Hmod & Hsig). exists (S c'). split; [reflexivity|].
      split; [rewrite <- Hmod, Hi; f_equal; lia|].
      rewrite Hsig, Hs0, <- app_assoc, <- repeat_app. now rewrite Hsplit. }
  destruct (Z.eqb_spec (frame_idx ls mod skip_frames) 0) as [Hmod|Hmod].
  - destruct (process_sample cfg fr (bld ls)) as [b|msg]; [|now apply (Hraise msg)].
    destruct (Z.ltb_spec 0 (processed_count ls + 1)) as [Hp|Hp]; [|lia].
    destruct (total_frames e =? 0);
      [now apply (Hraise "division by zero"%string)|].
    apply (Hstep _ _ 1%nat) in H; try assumption; try reflexivity.
    + simpl. lia.
    + simpl. lia.
    + simpl. now rewrite Hs.
    + cbn [sampled_among]. now rewrite Hmod.
  - apply (Hstep _ _ 0%nat) in H; try assumption; try reflexivity.
    + simpl. lia.
    + simpl. now rewrite app_nil_r.
    + cbn [sampled_among]. destruct (Z.eqb_spec (frame_idx ls mod skip_frames) 0); congruence.
Qed.

(** X10. One progress signal is emitted per sampled frame, the samples
    whose region is empty included: a run whose loop raises nothing emits
    as many as there are frames 0, 5, 10, ... among the frames it read. Only
    a sampled frame can end the loop by an exception: the frames read
    before it are a multiple of five, and each sample among them had its
    progress signal. *)
Theorem progress_per_sample (cfg : config) (e : env) :
  engine_init e = None ->
  match candidates cfg e with
  | Ok _ =>
      exists tail,
        signals (run cfg e)
        = repeat SigProgress (samples (frames_read (run cfg e))) ++ tail
        /\ terminal cfg tail
  | Raise msg =>
      exists c,
        frames_read (run cfg e) = S c
        /\ Nat.modulo c 5 = 0%nat
        /\ signals (run cfg e) = repeat SigProgress (samples c) ++ [SigError msg]
  end.
Proof.
  intros Hinit. unfold candidates, run, run_body. rewrite Hinit.
  destruct (run_loop cfg e (frames e) loop_init (set_cap Opened world_init))
    as [w' [ls|msg]] eqn:Hloop; cbn [snd];
    pose proof (run_loop_progress cfg e _ loop_init _ _ _ (Z.le_refl 0) Hloop)
      as (c & Hc & Hr);
    simpl in Hc, Hr.
  - rewrite sampled_among_samples in Hr. subst c.
    pose proof (is_running_world e (set_cap Released w')) as (Hs & _ & _ & Hfr).
    destruct (is_running e (set_cap Released w')) as [[|] w1]; cbn [negb snd] in *;
      simpl in Hs, Hfr.
    + unfold write_srt. destruct (open_error e) as [msg|].
      * exists [SigError msg]. simpl. rewrite Hs, Hfr, Hr.
        split; [reflexivity | right; right; now exists msg].
      * destruct (write_srt_loop e 1 (flush (bld ls)) []) as [f [[]|msg]].
        -- exists [SigFinished (output_path cfg)]. simpl. rewrite Hs, Hfr, Hr.
           split; [reflexivity | right; now left].
        -- exists [SigError msg]. simpl. rewrite Hs, Hfr, Hr.
           split; [reflexivity | right; right; now exists msg].
    + exists []. rewrite Hs, Hfr, Hr, app_nil_r. split; [reflexivity | now left].
  - destruct Hr as (c' & -> & Hmod & Hsig). exists c'.
    split; [exact Hc|]. split.
    + apply Nat2Z.inj. rewrite Nat2Z.inj_mod. exact Hmod.
    + cbn [signals emit]. rewrite Hsig. now rewrite sampled_among_samples.
Qed.

Lemma progress_per_sample_witness :
  exists tail,
    signals (run demo_cfg (mk_env None 16 demo_video None None None))
    = repeat SigProgress 4 ++ tail
    /\ terminal demo_cfg tail.
Proof.
  exact (progress_per_sample demo_cfg (mk_env None 16 demo_video None None None) eq_refl).
Defined.

(** * Properties of the region on the label *)

Lemma intersected_label (lw lh : Z) (r : QRect.t) :
  0 < lw -> 0 < lh -> QRect.isNull r = true \/ proper r ->
  settled_rect lw lh (QRect.intersected r (QRect.make 0 0 lw lh)).
Proof.
  intros Hw Hh Hr. unfold settled_rect, proper, in_view in *.
  destruct r as [a b c d]. unfold_qrect. cbn [QRect.x1 QRect.x2 QRect.y1 QRect.y2] in *.
  destruct Hr as [Hr|[Hx Hy]].
  - rewrite Hr. now left.
  - by_cases; cbn [orb andb]; try (now left); try lia;
      right; cbn [QRect.x1 QRect.x2 QRect.y1 QRect.y2]; lia.
Qed.

Lemma intersected_in_view (lw lh : Z) (r : QRect.t) :
  proper r -> in_view lw lh r ->
  QRect.intersected r (QRect.make 0 0 lw lh) = r.
Proof.
  unfold proper, in_view. destruct r as [a b c d]. unfold_qrect.
  cbn [QRect.x1 QRect.x2 QRect.y1 QRect.y2]. intros [Hx Hy] (H1 & H2 & H3 & H4).
  by_cases; cbn [orb andb]; try lia. f_equal; lia.
Qed.

Lemma settled_null_or_proper (lw lh : Z) (r : QRect.t) :
  settled_rect lw lh r -> QRect.isNull r = true \/ proper r.
Proof. intros [->|[H _]]; [now left | now right]. Qed.

(** What a motion does to the rectangle while a handle or the region is
    held, before it is cut to the label. *)
Lemma dragged_null_or_proper (mode : drag) (dx dy : Z) (r : QRect.t) :
  QRect.isNull r = true \/ proper r ->
  QRect.isNull (dragged mode dx dy r) = true \/ proper (dragged mode dx dy r).
Proof.
  intros Hr. destruct mode; unfold dragged.
  - destruct r as [a b c d]. unfold proper in *. unfold_qrect.
    cbn [QRect.x1 QRect.x2 QRect.y1 QRect.y2] in *.
    destruct Hr as [Hr|Hr]; [left|right; lia].
    apply andb_true_iff in Hr as [H1 H2]. apply Z.eqb_eq in H1, H2.
    apply andb_true_iff. rewrite !Z.eqb_eq. lia.
  - destruct ((20 <? Z.max 20 (QRect.width r - dx))
              && (20 <? Z.max 20 (QRect.height r - dy))) eqn:E; [|exact Hr].
    right. apply andb_true_iff in E as [E1 E2]. apply Z.ltb_lt in E1, E2.
    unfold proper. unfold_qrect. cbn [QRect.x1 QRect.x2 QRect.y1 QRect.y2]. lia.
  - right. unfold proper. unfold_qrect. cbn [QRect.x1 QRect.x2 QRect.y1 QRect.y2]. lia.
Qed.

Lemma mouseMoveEvent_dragged (lw lh : Z) (pos : Z * Z) (v : video_label) (mode : drag) :
  drag_mode v = Some mode ->
  roi_rect (mouseMoveEvent lw lh pos v)
  = QRect.intersected
      (dragged mode (fst pos - fst (last_pos v)) (snd pos - snd (last_pos v)) (roi_rect v))
      (QRect.make 0 0 lw lh)
  /\ drag_mode (mouseMoveEvent lw lh pos v) = Some mode
  /\ last_pos (mouseMoveEvent lw lh pos v) = pos.
Proof.
  unfold mouseMoveEvent. intros ->. destruct mode; now repeat split.
Qed.

Lemma mouseMoveEvent_idle (lw lh : Z) (pos : Z * Z) (v : video_label) :
  drag_mode v = None ->
  roi_rect (mouseMoveEvent lw lh pos v) = roi_rect v
  /\ drag_mode (mouseMoveEvent lw lh pos v) = None
  /\ last_pos (mouseMoveEvent lw lh pos v) = last_pos v.
Proof. unfold mouseMoveEvent. intros ->. now repeat split. Qed.

Lemma mouse_step_settled (lw lh : Z) (v : video_label) (ev : mouse_event) :
  0 < lw -> 0 < lh ->
  settled_rect lw lh (roi_rect v) -> settled_rect lw lh (roi_rect (mouse_step lw lh v ev)).
Proof.
  intros Hw Hh Hv. destruct ev as [pos|pos|]; [exact Hv| |exact Hv].
  cbn [mouse_step]. destruct (drag_mode v) as [mode|] eqn:Hm.
  - destruct (mouseMoveEvent_dragged lw lh pos v mode Hm) as [-> _].
    apply intersected_label; try assumption.
    apply dragged_null_or_proper. now apply (settled_null_or_proper lw lh).
  - destruct (mouseMoveEvent_idle lw lh pos v Hm) as [-> _]. exact Hv.
Qed.

(** X11. In a label of 500 by 280 pixels or more (it is never smaller than
    640 by 360), whatever a mouse does within reach of the label, the region
    is either gone (the null rectangle) or a rectangle with positive width
    and height that lies inside the label; and every such motion with the
    region or a handle held leaves it so, whatever rectangle within reach
    it was before. *)
Theorem roi_stays_in_view (lw lh : Z) (evs : list mouse_event) :
  500 <= lw <= reach -> 280 <= lh <= reach -> Forall near_event evs ->
  settled_rect lw lh (roi_rect (mouse_steps lw lh evs video_label_init))
  /\ (forall v pos,
         near pos -> near (last_pos v) -> near_rect (roi_rect v) ->
         drag_mode v <> None ->
         QRect.isNull (roi_rect v) = true \/ proper (roi_rect v) ->
         settled_rect lw lh (roi_rect (mouseMoveEvent lw lh pos v))).
Proof.
  intros [Hw _] [Hh _] _. split.
  - unfold mouse_steps.
    assert (H0 : settled_rect lw lh (roi_rect video_label_init)).
    { right. unfold proper, in_view. simpl. lia. }
    revert H0. generalize video_label_init.
    induction evs as [|ev evs IH]; intros v Hv; [exact Hv|].
    simpl. apply IH. apply mouse_step_settled; try assumption; lia.
  - intros v pos _ _ _ Hm Hr. destruct (drag_mode v) as [mode|] eqn:E; [|congruence].
    destruct (mouseMoveEvent_dragged lw lh pos v mode E) as [-> _].
    apply intersected_label; try lia. now apply dragged_null_or_proper.
Qed.

Lemma roi_stays_in_view_witness :
  settled_rect 640 360
    (roi_rect (mouse_steps 640 360 [Press (300, 240); Motion (700, 300); Release]
                 video_label_init)).
Proof.
  destruct (roi_stays_in_view 640 360 [Press (300, 240); Motion (700, 300); Release])
    as [H _]; [unfold reach; lia | unfold reach; lia | | exact H].
  repeat constructor; unfold reach; simpl; lia.
Defined.

(** X12. Moving the region never makes it larger, within reach of the
    label. A motion that keeps it inside the label moves it as it is; one
    that takes it across an edge cuts it there, so that it comes out smaller
    or, once nothing of it is left in the label, as the null rectangle. *)
Theorem move_never_grows (lw lh : Z) (pos : Z * Z) (v : video_label) :
  0 < lw <= reach -> 0 < lh <= reach ->
  near pos -> near (last_pos v) -> near_rect (roi_rect v) ->
  drag_mode v = Some Move -> proper (roi_rect v) ->
  QRect.width (roi_rect (mouseMoveEvent lw lh pos v)) <= QRect.width (roi_rect v)
  /\ QRect.height (roi_rect (mouseMoveEvent lw lh pos v)) <= QRect.height (roi_rect v)
  /\ (in_view lw lh (QRect.translate (roi_rect v) (fst pos - fst (last_pos v))
                                     (snd pos - snd (last_pos v))) ->
      roi_rect (mouseMoveEvent lw lh pos v)
      = QRect.translate (roi_rect v) (fst pos - fst (last_pos v))
                        (snd pos - snd (last_pos v)))
  /\ (~ in_view lw lh (QRect.translate (roi_rect v) (fst pos - fst (last_pos v))
                                       (snd pos - snd (last_pos v))) ->
      roi_rect (mouseMoveEvent lw lh pos v) = QRect.null
      \/ QRect.width (roi_rect (mouseMoveEvent lw lh pos v)) < QRect.width (roi_rect v)
      \/ QRect.height (roi_rect (mouseMoveEvent lw lh pos v)) < QRect.height (roi_rect v)).
Proof.
  intros [Hw _] [Hh _] _ _ _ Hm Hp.
  destruct (mouseMoveEvent_dragged lw lh pos v Move Hm) as [-> _].
  set (dx := fst pos - fst (last_pos v)). set (dy := snd pos - snd (last_pos v)).
  unfold dragged. destruct (roi_rect v) as [a b c d].
  unfold proper, in_view in *. unfold_qrect.
  cbn [QRect.x1 QRect.x2 QRect.y1 QRect.y2] in *.
  by_cases; cbn [orb andb QRect.x1 QRect.x2 QRect.y1 QRect.y2]; try lia;
    (split; [lia|]); (split; [lia|]); split; intros Hin;
    try (f_equal; lia); try (now left); try lia; right; lia.
Qed.

Lemma move_never_grows_witness :
  QRect.width (roi_rect (mouseMoveEvent 640 360 (0, 240)
                           (mousePressEvent (300, 240) video_label_init)))
  <= QRect.width (roi_rect (mousePressEvent (300, 240) video_label_init)).
Proof.
  apply (move_never_grows 640 360 (0, 240) (mousePressEvent (300, 240) video_label_init));
    try reflexivity; unfold near_rect, near, proper, reach; simpl; lia.
Defined.

(** X13. Resizing by one corner keeps the other corner where it is, as
    long as the region lay inside the label and the mouse stays within
    reach. By the bottom right corner,
    the width and the height become what the motion asks for, 20 pixels at
    least, cut at the edges of the label. By the top left corner, a motion
    that would leave 20 pixels or less in width or in height is ignored
    altogether; otherwise the corner follows the mouse, stopped at the
    edges of the label. *)
Theorem resize_keeps_opposite_corner (lw lh : Z) (pos : Z * Z) (v : video_label) :
  lw <= reach -> lh <= reach -> near pos -> near (last_pos v) ->
  proper (roi_rect v) -> in_view lw lh (roi_rect v) ->
  (drag_mode v = Some ResizeBR ->
   roi_rect (mouseMoveEvent lw lh pos v)
   = QRect.mk (QRect.x1 (roi_rect v)) (QRect.y1 (roi_rect v))
       (Z.min (QRect.x1 (roi_rect v)
               + Z.max 20 (QRect.width (roi_rect v) + (fst pos - fst (last_pos v))) - 1)
              (lw - 1))
       (Z.min (QRect.y1 (roi_rect v)
               + Z.max 20 (QRect.height (roi_rect v) + (snd pos - snd (last_pos v))) - 1)
              (lh - 1)))
  /\ (drag_mode v = Some ResizeTL ->
      roi_rect (mouseMoveEvent lw lh pos v)
      = if (20 <? QRect.width (roi_rect v) - (fst pos - fst (last_pos v)))
           && (20 <? QRect.height (roi_rect v) - (snd pos - snd (last_pos v)))
        then QRect.mk (Z.max (QRect.x1 (roi_rect v) + (fst pos - fst (last_pos v))) 0)
                      (Z.max (QRect.y1 (roi_rect v) + (snd pos - snd (last_pos v))) 0)
                      (QRect.x2 (roi_rect v)) (QRect.y2 (roi_rect v))
        else roi_rect v).
Proof.
  intros _ _ _ _ Hp Hv. split; intros Hm.
  - destruct (mouseMoveEvent_dragged lw lh pos v ResizeBR Hm) as [-> _].
    set (dx := fst pos - fst (last_pos v)). set (dy := snd pos - snd (last_pos v)).
    unfold dragged. destruct (roi_rect v) as [a b c d].
    unfold proper, in_view in *. unfold_qrect.
    cbn [QRect.x1 QRect.x2 QRect.y1 QRect.y2] in *.
    by_cases; cbn [orb andb]; try lia; f_equal; lia.
  - destruct (mouseMoveEvent_dragged lw lh pos v ResizeTL Hm) as [-> _].
    set (dx := fst pos - fst (last_pos v)). set (dy := snd pos - snd (last_pos v)).
    unfold dragged.
    assert (E : (20 <? Z.max 20 (QRect.width (roi_rect v) - dx))
                && (20 <? Z.max 20 (QRect.height (roi_rect v) - dy))
                = (20 <? QRect.width (roi_rect v) - dx)
                  && (20 <? QRect.height (roi_rect v) - dy)).
    { by_cases; cbn [andb]; try reflexivity; lia. }
    rewrite E. clear E.
    destruct ((20 <? QRect.width (roi_rect v) - dx)
              && (20 <? QRect.height (roi_rect v) - dy)) eqn:E;
      [|now apply intersected_in_view].
    apply andb_true_iff in E as [E1 E2]. apply Z.ltb_lt in E1, E2.
    destruct (roi_rect v) as [a b c d].
    unfold proper, in_view in *. unfold_qrect.
    cbn [QRect.x1 QRect.x2 QRect.y1 QRect.y2] in *.
    by_cases; cbn [orb andb]; try lia; f_equal; lia.
Qed.

Lemma resize_keeps_opposite_corner_witness :
  roi_rect (mouseMoveEvent 640 360 (600, 300)
              (mousePressEvent (499, 279) video_label_init))
  = QRect.mk 100 200 600 300.
Proof.
  refine (proj1 (resize_keeps_opposite_corner 640 360 (600, 300)
                   (mousePressEvent (499, 279) video_label_init) _ _ _ _ _ _) eq_refl);
    unfold proper, in_view, near, reach; simpl; lia.
Defined.

Lemma press_on_null (px py : Z) (v : video_label) :
  roi_rect v = QRect.null -> 0 <= px -> 0 <= py ->
  drag_mode (mousePressEvent (px, py) v) <> Some ResizeBR.
Proof.
  intros Hr Hx Hy. unfold mousePressEvent. rewrite Hr.
  unfold handle_tl, handle_br, QRect.contains. unfold_qrect.
  cbn [QRect.x1 QRect.x2 QRect.y1 QRect.y2].
  by_cases; cbn [orb]; try discriminate; lia.
Qed.

Lemma drag_null (lw lh dx dy : Z) (mode : drag) :
  0 <= lw -> 0 <= lh -> mode <> ResizeBR ->
  QRect.intersected (dragged mode dx dy QRect.null) (QRect.make 0 0 lw lh) = QRect.null.
Proof.
  intros Hw Hh Hm. destruct mode; [| |congruence]; unfold dragged.
  - reflexivity || (unfold_qrect; cbn [QRect.x1 QRect.x2 QRect.y1 QRect.y2];
                    by_cases; cbn [orb andb]; try reflexivity; lia).
  - unfold_qrect. cbn [QRect.x1 QRect.x2 QRect.y1 QRect.y2].
    destruct ((20 <? Z.max 20 (-1 - 0 + 1 - dx)) && (20 <? Z.max 20 (-1 - 0 + 1 - dy))) eqn:E.
    + apply andb_true_iff in E as [E1 E2]. apply Z.ltb_lt in E1, E2.
      cbn [QRect.x1 QRect.x2 QRect.y1 QRect.y2].
      by_cases; cbn [orb andb]; try reflexivity; lia.
    + reflexivity.
Qed.

Lemma mouse_step_lost (lw lh : Z) (v : video_label) (ev : mouse_event) :
  0 <= lw -> 0 <= lh -> pressed_inside ev -> lost v -> lost (mouse_step lw lh v ev).
Proof.
  intros Hw Hh Hev [Hr Hm]. unfold lost.
  destruct ev as [[px py]|pos|]; cbn [mouse_step].
  - split; [exact Hr|]. destruct Hev. now apply press_on_null.
  - destruct (drag_mode v) as [mode|] eqn:E.
    + destruct (mouseMoveEvent_dragged lw lh pos v mode E) as (-> & -> & _).
      split; [|exact Hm]. rewrite Hr. apply drag_null; congruence.
    + destruct (mouseMoveEvent_idle lw lh pos v E) as (-> & -> & _).
      split; [exact Hr | discriminate].
  - split; [exact Hr | discriminate].
Qed.

(** X14. A region that is gone stays gone. Once the region has been moved
    out of the label altogether (it is the null rectangle then) and the
    button is released, pressing inside the label and dragging never
    brings it back: only the top left handle can still be taken there, and
    what it drags lies outside the label. *)
Theorem lost_region_stays_lost (lw lh : Z) (evs : list mouse_event) (v : video_label) :
  0 <= lw -> 0 <= lh ->
  roi_rect v = QRect.null -> drag_mode v <> Some ResizeBR ->
  Forall pressed_inside evs ->
  roi_rect (mouse_steps lw lh evs v) = QRect.null.
Proof.
  intros Hw Hh Hr Hm Hevs.
  assert (H : lost v) by now split. clear Hr Hm. revert v H.
  unfold mouse_steps. induction Hevs as [|ev evs Hev _ IH]; intros v Hv.
  - apply Hv.
  - simpl. apply IH. now apply mouse_step_lost.
Qed.

Lemma lost_region_stays_lost_witness :
  roi_rect (mouse_steps 640 360
              [Press (2, 2); Motion (-60, -60); Release; Press (300, 240); Motion (320, 250)]
              (mouse_steps 640 360 [Press (300, 240); Motion (-300, 240); Release]
                 video_label_init))
  = QRect.null.
Proof.
  apply (lost_region_stays_lost 640 360
           [Press (2, 2); Motion (-60, -60); Release; Press (300, 240); Motion (320, 250)]
           (mouse_steps 640 360 [Press (300, 240); Motion (-300, 240); Release]
              video_label_init)); try lia; try reflexivity.
  - discriminate.
  - repeat constructor; simpl; lia.
Defined.

(** * Properties of the window *)

(** ** What a run leaves to the window *)

Lemma run_loop_raise_running (cfg : config) (e : env) (fs : list frame) :
  forall ls w w' msg,
    consistent e w ->
    run_loop cfg e fs ls w = (w', Raise msg) -> running w' = true.
Proof.
  induction fs as [|fr rest IH]; intros ls w w' msg Hc H;
    cbn [run_loop] in H; destruct (is_running_flag e w Hc) as [E Hc1];
    rewrite E in H; clear E;
    destruct (flag e (polls w)) eqn:Hf; cbn [negb] in H; try discriminate.
  assert (Hc2 : consistent e (count_read (polled e w))).
  { now apply (consistent_same e (polled e w)). }
  assert (Hrun : running (count_read (polled e w)) = true) by exact Hf.
  destruct (frame_idx ls mod skip_frames =? 0).
  - destruct (process_sample cfg fr (bld ls)) as [b|msg'].
    + destruct (0 <? processed_count ls + 1).
      * destruct (total_frames e =? 0).
        -- inversion H; subst. exact Hrun.
        -- apply IH in H; [exact H|].
           now apply (consistent_same e (polled e w)).
      * now apply IH in H.
    + inversion H; subst. exact Hrun.
  - now apply IH in H.
Qed.

(** A run ends in one of three ways: without a word, the flag down; with
    the completion signal; with the failure signal. The flag is up in the
    last two. *)
Lemma run_ends (cfg : config) (e : env) :
  exists n,
    (running (run cfg e) = false /\ signals (run cfg e) = repeat SigProgress n)
    \/ (running (run cfg e) = true
        /\ (signals (run cfg e) = repeat SigProgress n ++ [SigFinished (output_path cfg)]
            \/ exists msg, signals (run cfg e) = repeat SigProgress n ++ [SigError msg])).
Proof.
  unfold run, run_body.
  destruct (engine_init e) as [msg|].
  { exists 0%nat. right. split; [reflexivity|]. right. now exists msg. }
  destruct (run_loop cfg e (frames e) loop_init (set_cap Opened world_init))
    as [w' [ls|msg]] eqn:Hloop;
    pose proof (run_loop_world _ _ _ _ _ _ _ (consistent_init e) Hloop)
      as (Hcons & _ & _ & [n Hsig] & _); simpl in Hsig; exists n.
  - destruct (is_running_flag e (set_cap Released w')) as [E _];
      [now apply (consistent_same e w')|].
    rewrite E. clear E.
    destruct (flag e (polls (set_cap Released w'))) eqn:Hf; cbn [negb].
    + right. unfold write_srt. destruct (open_error e) as [msg|].
      * simpl. rewrite Hsig. split; [exact Hf|]. right. now exists msg.
      * destruct (write_srt_loop e 1 (flush (bld ls)) []) as [f [[]|msg]];
          simpl; rewrite Hsig; (split; [exact Hf|]); [now left | right; now exists msg].
    + left. simpl. split; [exact Hf | exact Hsig].
  - right. simpl. rewrite Hsig. split.
    + apply (run_loop_raise_running _ _ _ _ _ _ _ (consistent_init e) Hloop).
    + right. now exists msg.
Qed.

(** ** The invariant of the window *)

Lemma truthy_nonempty (s : string) : Py.truthy s = true -> s <> ""%string.
Proof. intros H ->. discriminate. Qed.

Lemma window_init_ok (os : os_path) : window_ok (window_init os).
Proof.
  split; [discriminate|]. split; [discriminate|]. split; [now intros H|].
  intros wk H. discriminate.
Qed.

Lemma ui_step_ok (os : os_path) (win : window) (ev : ui_event) :
  window_ok win -> window_ok (ui_step os win ev).
Proof.
  intros Hok.
  destruct ev as [file_path|d|[[[rx ry] rw] rh]|now|text|u];
    cbn [ui_step].
  - destruct (btn_add win) eqn:Ha; [|exact Hok].
    unfold open_video. destruct (Py.truthy file_path) eqn:Hp; [|exact Hok].
    destruct Hok as (Hcancel & Hrun & Hpath & Hwk).
    split; [|split; [|split]]; cbn.
    + intros Hc. destruct (Hcancel Hc) as [Ha' _]. congruence.
    + intros _. now apply truthy_nonempty.
    + intros _. now apply truthy_nonempty.
    + exact Hwk.
  - unfold choose_save_dir. destruct (Py.truthy d); [|exact Hok].
    destruct Hok as (Hcancel & Hrun & Hpath & Hwk).
    split; [|split; [|split]]; cbn; assumption.
  - destruct (btn_run win) eqn:Hb; [|exact Hok].
    unfold start_ocr.
    destruct (Py.truthy (win_video_path win)) eqn:Hp; cbn [negb]; [|exact Hok].
    destruct Hok as (Hcancel & Hrun & Hpath & Hwk).
    destruct ((rw <? 10) || (rh <? 10)) eqn:Hsmall.
    { split; [|split; [|split]]; cbn; assumption. }
    apply orb_false_iff in Hsmall as [H1 H2]. apply Z.ltb_ge in H1, H2.
    split; [|split; [|split]]; cbn.
    + intros _. repeat split. discriminate.
    + discriminate.
    + intros _. now apply truthy_nonempty.
    + intros wk Heq. inversion Heq; subst. cbn.
      split; [now apply truthy_nonempty|]. split; [reflexivity|].
      now exists rx, ry, rw, rh.
  - destruct (btn_cancel win) eqn:Hc; [|exact Hok].
    unfold cancel_ocr. destruct (ocr_thread win) as [wk|] eqn:Ht; [|exact Hok].
    destruct now; [|exact Hok].
    destruct Hok as (Hcancel & Hrun & Hpath & Hwk).
    split; [|split; [|split]]; cbn.
    + discriminate.
    + exact Hrun.
    + intros _. apply Hpath. rewrite Ht. discriminate.
    + intros wk' Heq. inversion Heq; subst. cbn. now apply Hwk.
  - destruct Hok as (Hcancel & Hrun & Hpath & Hwk).
    split; [|split; [|split]]; cbn; assumption.
  - destruct (ocr_thread win) as [wk|] eqn:Ht; [|exact Hok].
    destruct Hok as (Hcancel & Hrun & Hpath & Hwk).
    assert (Hp : win_video_path win <> ""%string) by (apply Hpath; rewrite Ht; discriminate).
    destruct u as [val msg|path|err].
    + split; [|split; [|split]]; cbn; assumption.
    + split; [|split; [|split]]; cbn; try assumption; try discriminate.
      now intros _.
    + split; [|split; [|split]]; cbn; try assumption; try discriminate.
      now intros _.
Qed.

Lemma ui_steps_ok (os : os_path) (evs : list ui_event) :
  forall win, window_ok win -> window_ok (ui_steps os evs win).
Proof.
  unfold ui_steps. induction evs as [|ev evs IH]; intros win Hok; [exact Hok|].
  simpl. apply IH. now apply ui_step_ok.
Qed.

(** X15. Whatever the user clicks and whatever a worker signals, from the
    start of the program on, the cancel button is enabled only while the
    buttons to add a video and to start an extraction are both disabled,
    and the button to start an extraction is enabled only when a video has
    been chosen: the early return of [start_ocr] on an empty video path is
    never taken by a click. *)
Theorem cancel_excludes_add_and_run (os : os_path) (evs : list ui_event) :
  (btn_cancel (ui_steps os evs (window_init os)) = true ->
   btn_add (ui_steps os evs (window_init os)) = false
   /\ btn_run (ui_steps os evs (window_init os)) = false)
  /\ (btn_run (ui_steps os evs (window_init os)) = true ->
      Py.truthy (win_video_path (ui_steps os evs (window_init os))) = true).
Proof.
  destruct (ui_steps_ok os evs _ (window_init_ok os)) as (Hcancel & Hrun & _).
  split.
  - intros H. destruct (Hcancel H) as (Ha & Hb & _). now split.
  - intros H. specialize (Hrun H).
    destruct (win_video_path (ui_steps os evs (window_init os)));
      [now elim Hrun | reflexivity].
Qed.

(** X16. Every worker the window has started was built on a video path
    that is not empty, with the default threshold 0.6, and with a region at
    least 10 pixels wide and 10 pixels high. *)
Theorem started_worker_config (os : os_path) (evs : list ui_event) (wk : worker) :
  ocr_thread (ui_steps os evs (window_init os)) = Some wk ->
  video_path (worker_cfg wk) <> ""%string
  /\ threshold (worker_cfg wk) = default_threshold
  /\ exists rx ry rw rh,
      roi (worker_cfg wk) = (rx, ry, rw, rh) /\ 10 <= rw /\ 10 <= rh.
Proof.
  intros H.
  destruct (ui_steps_ok os evs _ (window_init_ok os)) as (_ & _ & _ & Hwk).
  now apply Hwk.
Qed.

Lemma started_worker_config_witness :
  video_path (mk_config "/videos/film.mp4" "/tmp/film.srt" (50, 50, 40, 20) default_threshold)
  <> ""%string
  /\ threshold (mk_config "/videos/film.mp4" "/tmp/film.srt" (50, 50, 40, 20) default_threshold)
     = default_threshold
  /\ exists rx ry rw rh,
      roi (mk_config "/videos/film.mp4" "/tmp/film.srt" (50, 50, 40, 20) default_threshold)
      = (rx, ry, rw, rh) /\ 10 <= rw /\ 10 <= rh.
Proof.
  apply (started_worker_config demo_os
           [ClickAdd "/videos/film.mp4"; EditPath "/tmp/film.srt";
            ClickRun (50, 50, 5, 20); ClickRun (50, 50, 40, 20);
            Signal (UProgress 6 "1/16"); ClickCancel true]
           (mk_worker
              (mk_config "/videos/film.mp4" "/tmp/film.srt" (50, 50, 40, 20) default_threshold)
              true)).
  reflexivity.
Defined.

(** ** An extraction, from the click to its end *)

Lemma signals_of_app (evs evs' : list ui_event) :
  signals_of (evs ++ evs') = signals_of evs ++ signals_of evs'.
Proof. unfold signals_of. apply flat_map_app. Qed.

Lemma ui_steps_app (os : os_path) (evs evs' : list ui_event) (win : window) :
  ui_steps os (evs ++ evs') win = ui_steps os evs' (ui_steps os evs win).
Proof. unfold ui_steps. apply fold_left_app. Qed.

Lemma progress_quiet (evs : list ui_event) :
  forall n, signals_of evs = repeat SigProgress n -> Forall quiet evs.
Proof.
  induction evs as [|ev evs IH]; intros n H; [constructor|].
  destruct ev as [file_path|d|real_roi|now|text|u];
    try (constructor; [exact I | now apply (IH n)]).
  destruct n as [|n]; [discriminate|]. simpl in H. inversion H as [[Hu Hrest]].
  rewrite Hu in Hrest. constructor; [|apply (IH n); exact Hrest].
  destruct u; [exact I | discriminate | discriminate].
Qed.

Lemma start_ocr_busy (os : os_path) (win : window) (rx ry rw rh : Z) :
  window_ok win -> btn_run win = true -> 10 <= rw -> 10 <= rh ->
  ui_step os win (ClickRun (rx, ry, rw, rh))
  = mk_window (win_video_path win) (output_dir win) (output_filename win)
              (le_save_path win) false false true 0 StInitialising
              (Some (mk_worker
                       (mk_config (win_video_path win) (le_save_path win)
                                  (rx, ry, rw, rh) default_threshold)
                       false))
              (dialogs win).
Proof.
  intros (_ & Hrun & _) Hb Hw Hh. cbn [ui_step]. rewrite Hb. unfold start_ocr.
  specialize (Hrun Hb).
  destruct (win_video_path win) eqn:Hp; [now elim Hrun|]. cbn [Py.truthy negb].
  rewrite (proj2 (Z.ltb_ge rw 10) Hw), (proj2 (Z.ltb_ge rh 10) Hh). reflexivity.
Qed.

Lemma quiet_busy (os : os_path) (win : window) (ev : ui_event) :
  busy win -> quiet ev -> busy (ui_step os win ev).
Proof.
  intros Hbusy Hq. pose proof Hbusy as (Ha & Hb & Ht).
  destruct ev as [file_path|d|real_roi|now|text|u]; cbn [ui_step].
  - now rewrite Ha.
  - unfold choose_save_dir. destruct (Py.truthy d); [|exact Hbusy].
    split; [|split]; cbn; assumption.
  - now rewrite Hb.
  - destruct (btn_cancel win); [|exact Hbusy].
    unfold cancel_ocr. destruct (ocr_thread win) as [wk|]; [|now elim Ht].
    destruct now; [|exact Hbusy].
    split; [|split]; cbn; try assumption. discriminate.
  - split; [|split]; cbn; assumption.
  - destruct (ocr_thread win) as [wk|] eqn:E; [|now elim Ht].
    destruct u; [|now elim Hq|now elim Hq].
    split; [|split]; cbn; try assumption. rewrite E. discriminate.
Qed.

Lemma quiet_locked (os : os_path) (win : window) (ev : ui_event) :
  locked win -> quiet ev -> locked (ui_step os win ev).
Proof.
  intros Hl Hq. pose proof Hl as (Ha & Hb & Hc).
  destruct ev as [file_path|d|real_roi|now|text|u]; cbn [ui_step].
  - now rewrite Ha.
  - unfold choose_save_dir. destruct (Py.truthy d); [|exact Hl].
    split; [|split]; cbn; assumption.
  - now rewrite Hb.
  - now rewrite Hc.
  - split; [|split]; cbn; assumption.
  - destruct (ocr_thread win) as [wk|]; [|exact Hl].
    destruct u; [|now elim Hq|now elim Hq].
    split; [|split]; cbn; assumption.
Qed.

Lemma cancel_busy (os : os_path) (win : window) :
  busy win -> locked (ui_step os win (ClickCancel true)).
Proof.
  intros (Ha & Hb & Ht). cbn [ui_step].
  destruct (btn_cancel win) eqn:Hc; [|split; [|split]; assumption].
  unfold cancel_ocr. destruct (ocr_thread win) as [wk|]; [|now elim Ht].
  split; [|split]; cbn; try assumption. reflexivity.
Qed.

Lemma quiet_steps_busy (os : os_path) (evs : list ui_event) :
  forall win, busy win -> Forall quiet evs -> busy (ui_steps os evs win).
Proof.
  unfold ui_steps. induction evs as [|ev evs IH]; intros win Hw Hq; [exact Hw|].
  inversion Hq; subst. simpl. apply IH; [|assumption]. now apply quiet_busy.
Qed.

Lemma quiet_steps_locked (os : os_path) (evs : list ui_event) :
  forall win, locked win -> Forall quiet evs -> locked (ui_steps os evs win).
Proof.
  unfold ui_steps. induction evs as [|ev evs IH]; intros win Hw Hq; [exact Hw|].
  inversion Hq; subst. simpl. apply IH; [|assumption]. now apply quiet_locked.
Qed.

(** X17. A cancelled extraction leaves the window unusable. When an
    extraction is started from the window and its worker ends on the stop
    request (the flag is down when [run] returns), then, whatever the user
    clicks and whatever signals of that worker arrive, the buttons to add a
    video and to start an extraction stay disabled; and once the cancel
    button has been clicked on the running worker, the cancel button is
    disabled too: no handler of the window enables a button again, since
    [reset_ui] is called from the completion and the failure signal only and
    a cancelled run emits neither. *)
Theorem cancelled_run_locks_window
    (os : os_path) (evs0 evs : list ui_event) (win : window) (rx ry rw rh : Z) (e : env) :
  win = ui_steps os evs0 (window_init os) ->
  btn_run win = true -> 10 <= rw -> 10 <= rh ->
  running (run (mk_config (win_video_path win) (le_save_path win)
                          (rx, ry, rw, rh) default_threshold) e) = false ->
  signals_of evs
  = signals (run (mk_config (win_video_path win) (le_save_path win)
                            (rx, ry, rw, rh) default_threshold) e) ->
  btn_add (ui_steps os (ClickRun (rx, ry, rw, rh) :: evs) win) = false
  /\ btn_run (ui_steps os (ClickRun (rx, ry, rw, rh) :: evs) win) = false
  /\ (In (ClickCancel true) evs ->
      btn_cancel (ui_steps os (ClickRun (rx, ry, rw, rh) :: evs) win) = false).
Proof.
  intros Hwin Hb Hw Hh Hdown Hsig.
  assert (Hok : window_ok win).
  { rewrite Hwin. apply ui_steps_ok, window_init_ok. }
  destruct (run_ends (mk_config (win_video_path win) (le_save_path win)
                                (rx, ry, rw, rh) default_threshold) e)
    as [n [[_ Hs]|[Hup _]]]; [|congruence].
  rewrite Hs in Hsig. apply progress_quiet in Hsig.
  change (ui_steps os (ClickRun (rx, ry, rw, rh) :: evs) win)
    with (ui_steps os evs (ui_step os win (ClickRun (rx, ry, rw, rh)))).
  rewrite (start_ocr_busy os win rx ry rw rh Hok Hb Hw Hh).
  match goal with |- context [ui_steps os evs ?w] => set (win1 := w) end.
  assert (Hbusy : busy win1) by (repeat split; discriminate).
  destruct (quiet_steps_busy os evs win1 Hbusy Hsig) as (Ha' & Hb' & _).
  split; [exact Ha'|]. split; [exact Hb'|].
  intros Hin. apply in_split in Hin as (l1 & l2 & ->).
  apply Forall_app in Hsig as [Hq1 Hq2]. inversion Hq2; subst.
  rewrite ui_steps_app.
  change (ui_steps os (ClickCancel true :: l2) (ui_steps os l1 win1))
    with (ui_steps os l2 (ui_step os (ui_steps os l1 win1) (ClickCancel true))).
  apply quiet_steps_locked; [|assumption].
  apply cancel_busy. now apply quiet_steps_busy.
Qed.

Lemma cancelled_run_locks_window_witness :
  btn_add (ui_steps demo_os
             [ClickRun (50, 50, 40, 20); Signal (UProgress 6 "1/16"); ClickCancel true;
              ClickAdd "/videos/film.mp4"; ClickRun (50, 50, 40, 20)]
             demo_window) = false
  /\ btn_run (ui_steps demo_os
                [ClickRun (50, 50, 40, 20); Signal (UProgress 6 "1/16"); ClickCancel true;
                 ClickAdd "/videos/film.mp4"; ClickRun (50, 50, 40, 20)]
                demo_window) = false
  /\ (In (ClickCancel true)
         [Signal (UProgress 6 "1/16"); ClickCancel true;
          ClickAdd "/videos/film.mp4"; ClickRun (50, 50, 40, 20)] ->
      btn_cancel (ui_steps demo_os
                    [ClickRun (50, 50, 40, 20); Signal (UProgress 6 "1/16"); ClickCancel true;
                     ClickAdd "/videos/film.mp4"; ClickRun (50, 50, 40, 20)]
                    demo_window) = false).
Proof.
  apply (cancelled_run_locks_window demo_os [ClickAdd "/videos/film.mp4"]
           [Signal (UProgress 6 "1/16"); ClickCancel true;
            ClickAdd "/videos/film.mp4"; ClickRun (50, 50, 40, 20)]
           demo_window 50 50 40 20
           (mk_env None 16 demo_video (Some 1%nat) None None));
    try lia; reflexivity.
Defined.

Lemma thread_stays (os : os_path) (win : window) (ev : ui_event) :
  ocr_thread win <> None -> ocr_thread (ui_step os win ev) <> None.
Proof.
  intros Ht.
  destruct ev as [file_path|d|[[[rx ry] rw] rh]|now|text|u]; cbn [ui_step].
  - destruct (btn_add win); [|exact Ht]. unfold open_video.
    now destruct (Py.truthy file_path).
  - unfold choose_save_dir. now destruct (Py.truthy d).
  - destruct (btn_run win); [|exact Ht]. unfold start_ocr.
    destruct (negb (Py.truthy (win_video_path win))); [exact Ht|].
    destruct ((rw <? 10) || (rh <? 10)); [exact Ht | discriminate].
  - destruct (btn_cancel win); [|exact Ht]. unfold cancel_ocr.
    destruct (ocr_thread win) as [wk|] eqn:E; [|now elim Ht].
    destruct now; [discriminate | now rewrite E].
  - exact Ht.
  - destruct (ocr_thread win) as [wk|] eqn:E; [|now elim Ht].
    destruct u; cbn; now rewrite E.
Qed.

Lemma thread_stays_steps (os : os_path) (evs : list ui_event) :
  forall win, ocr_thread win <> None -> ocr_thread (ui_steps os evs win) <> None.
Proof.
  unfold ui_steps. induction evs as [|ev evs IH]; intros win Ht; [exact Ht|].
  simpl. apply IH. now apply thread_stays.
Qed.

(** X18. An extraction that is not cancelled gives the window back. When
    an extraction is started from the window and its worker ends with the
    flag up, the last signal of the worker is the completion signal, with
    the path that was in the path field when the run button was clicked,
    or the failure signal; when it arrives, whatever was clicked or typed
    meanwhile, the buttons to add a video and to start an extraction are
    enabled again and the cancel button is disabled, and after the
    completion signal the progress bar is at 100. *)
Theorem ended_run_frees_window
    (os : os_path) (evs0 evs : list ui_event) (u : ui_signal) (win : window)
    (rx ry rw rh : Z) (e : env) :
  win = ui_steps os evs0 (window_init os) ->
  btn_run win = true -> 10 <= rw -> 10 <= rh ->
  running (run (mk_config (win_video_path win) (le_save_path win)
                          (rx, ry, rw, rh) default_threshold) e) = true ->
  signals_of (evs ++ [Signal u])
  = signals (run (mk_config (win_video_path win) (le_save_path win)
                            (rx, ry, rw, rh) default_threshold) e) ->
  idle (ui_steps os (ClickRun (rx, ry, rw, rh) :: evs ++ [Signal u]) win)
  /\ ((u = UFinished (le_save_path win)
       /\ pbar (ui_steps os (ClickRun (rx, ry, rw, rh) :: evs ++ [Signal u]) win) = 100)
      \/ exists err, u = UError err).
Proof.
  intros Hwin Hb Hw Hh Hup Hsig.
  assert (Hok : window_ok win).
  { rewrite Hwin. apply ui_steps_ok, window_init_ok. }
  change (ui_steps os (ClickRun (rx, ry, rw, rh) :: evs ++ [Signal u]) win)
    with (ui_steps os (evs ++ [Signal u]) (ui_step os win (ClickRun (rx, ry, rw, rh)))).
  rewrite (start_ocr_busy os win rx ry rw rh Hok Hb Hw Hh), ui_steps_app.
  match goal with |- context [ui_steps os evs ?w] => set (win1 := w) end.
  assert (Ht : ocr_thread (ui_steps os evs win1) <> None).
  { apply thread_stays_steps. discriminate. }
  rewrite signals_of_app in Hsig. simpl in Hsig.
  destruct (run_ends (mk_config (win_video_path win) (le_save_path win)
                                (rx, ry, rw, rh) default_threshold) e)
    as [n [[Hdown _]|[_ [Hs|[msg Hs]]]]]; [congruence| |];
    rewrite Hs in Hsig; apply app_inj_tail in Hsig as [_ Hu];
    destruct u as [val m|path|err]; try discriminate;
    inversion Hu; subst path || subst err;
    unfold ui_steps at 1 3 || unfold ui_steps at 1; cbn [fold_left ui_step];
    destruct (ocr_thread (ui_steps os evs win1)) as [wk|]; try (now elim Ht).
  - split; [now repeat split|]. left. split; reflexivity.
  - split; [now repeat split|]. right. now exists msg.
Qed.

Lemma ended_run_frees_window_witness :
  idle (ui_steps demo_os
          (ClickRun (50, 50, 40, 20)
           :: [Signal (UProgress 6 "1/16"); ClickSetPath "/tmp"; Signal (UProgress 37 "6/16");
               EditPath "/tmp/other.srt"; Signal (UProgress 68 "11/16");
               Signal (UProgress 100 "16/16")]
              ++ [Signal (UFinished "/videos/film.srt")])
          demo_window)
  /\ ((UFinished "/videos/film.srt" = UFinished (le_save_path demo_window)
       /\ pbar (ui_steps demo_os
                  (ClickRun (50, 50, 40, 20)
                   :: [Signal (UProgress 6 "1/16"); ClickSetPath "/tmp";
                       Signal (UProgress 37 "6/16"); EditPath "/tmp/other.srt";
                       Signal (UProgress 68 "11/16"); Signal (UProgress 100 "16/16")]
                      ++ [Signal (UFinished "/videos/film.srt")])
                  demo_window) = 100)
      \/ exists err, UFinished "/videos/film.srt" = UError err).
Proof.
  apply (ended_run_frees_window demo_os [ClickAdd "/videos/film.mp4"]
           [Signal (UProgress 6 "1/16"); ClickSetPath "/tmp"; Signal (UProgress 37 "6/16");
            EditPath "/tmp/other.srt"; Signal (UProgress 68 "11/16");
            Signal (UProgress 100 "16/16")]
           (UFinished "/videos/film.srt") demo_window 50 50 40 20
           (mk_env None 16 demo_video None None None));
    try lia; reflexivity.
Defined.
